(** * dll::dbn -- the Deep Belief Network orchestrator of [include/dll/dbn.inl]

    A shallow embedding of the template [dbn<Desc>]: the layer stack, the two
    pretraining modes, label-augmented training, the inference chains, the
    persistence order and the SVM bridge, followed by the properties of the
    orchestration that the specification states.

    The individual layers (RBMs, pooling layers), the RBM trainer, the SVM
    library and the stream primitives live in other headers.  They enter the
    development as the fields of [rbm_type] and [svm_lib]: arbitrary
    functions, about which a theorem assumes only what it states. *)

From Stdlib Require Import String QArith Qround.
From stdpp Require Import base option list.
Close Scope Q_scope.
Open Scope nat_scope.

(** ** Numeric and object domains *)

(** [weight] is the numeric type of the units ([rbm_type<0>::weight], a C++
    floating type).  The code uses three literals and [operator<].
    [SIZE_MAX] is the largest value of [std::size_t], the type of every size
    and count in the file. *)
Class Domain := {
  SIZE_MAX : N;
  weight : Type;
  w_zero : weight;                         (* 0.0 *)
  w_one : weight;                          (* 1.0 *)
  w_tenth : weight;                        (* 0.1 *)
  w_ltb : weight -> weight -> bool;        (* operator< *)
  sample : Type;                           (* one raw training item *)
  rbm : Type;                              (* the mutable content of one layer object *)
  rbm_trainer : Type;                      (* rbm_trainer_t together with its get_trainer object *)
  rbm_training_context : Type;             (* rbm_training_context *)
  ctx_new : rbm_training_context;          (* a default-constructed context *)
}.

Abbreviation vec := (list weight).

(** Sizes and counts are kept as natural numbers.  [std::size_t] arithmetic
    is unsigned: a result is taken modulo [SIZE_MAX + 1].  [to_size_t n] is
    the [std::size_t] value of a computation whose result over the integers
    is [n]; a value up to [SIZE_MAX] is left as it is. *)
Definition to_size_t `{Domain} (n : nat) : N := (N.of_nat n mod N.succ SIZE_MAX)%N.

(** ** Outcomes of calls

    A call returns ([Ok]), or is aborted by [cpp_assert] with its message.
    Indexing a buffer past its end or stepping an iterator out of its range
    is undefined in C++ and is kept apart as [OutOfRange]; [Diverges] is a
    loop of the source that makes no progress; [IllFormed] is an
    instantiation that does not compile (a layer index outside the tuple, an
    ambiguous overload). *)
Inductive outcome (A : Type) : Type :=
  | Ok (a : A)
  | AssertionFailed (msg : string)
  | OutOfRange
  | Diverges
  | IllFormed.
Arguments Ok {A} a.
Arguments AssertionFailed {A} msg.
Arguments OutOfRange {A}.
Arguments Diverges {A}.
Arguments IllFormed {A}.

#[global]
Instance outcome_ret : MRet outcome := fun A a => Ok a.

#[global]
Instance outcome_bind : MBind outcome := fun A B f m =>
  match m with
  | Ok a => f a
  | AssertionFailed msg => AssertionFailed msg
  | OutOfRange => OutOfRange
  | Diverges => Diverges
  | IllFormed => IllFormed
  end.

#[global]
Instance outcome_fmap : FMap outcome := fun A B f m => a ← m; mret (f a).

(** Modelled from the spec: the macro [cpp_assert] is defined in cpp_utils,
    outside this file.  A violated precondition is a fatal assertion failure:
    it aborts the call at once with its descriptive message. *)
Definition cpp_assert (cond : bool) (msg : string) : outcome unit :=
  if cond then Ok tt else AssertionFailed msg.

(** [buf[i] = x] and [buf[i][j] = x] on buffers of fixed size. *)
Definition write_at {A} (i : nat) (x : A) (buf : list A) : outcome (list A) :=
  if decide (i < length buf) then Ok (<[i := x]> buf) else OutOfRange.

Definition write_at2 {A} (i j : nat) (x : A) (buf : list (list A)) : outcome (list (list A)) :=
  match buf !! i with
  | Some row => row' ← write_at j x row; Ok (<[i := row']> buf)
  | None => OutOfRange
  end.

(** [maybe_parallel_foreach_i(pool, first, last, f)] where [f(v, i)] fills
    [out[i]] from [v]: the elements are independent, so the sequential order
    stands for every schedule. *)
Fixpoint foreach_i {A B} (f : A -> B -> B) (i : nat) (input : list A) (out : list B)
  : outcome (list B) :=
  match input with
  | [] => Ok out
  | v :: rest =>
      match out !! i with
      | Some o => foreach_i f (S i) rest (<[i := f v o]> out)
      | None => OutOfRange
      end
  end.

(** ** Layers

    What the orchestrator uses of a layer type [rbm_type<N>] and of
    [layer_traits<rbm_type<N>>].  An operation that fills an output argument
    returns the new content of that argument. *)
Record rbm_type `{Domain} := {
  input_size : nat;
  output_size : nat;
  is_pooling_layer : bool;
  pretrain_last : bool;
  get_batch_size : rbm -> nat;
  (* conversions of raw data *)
  convert_input : rbm -> list sample -> list vec;
  convert_sample : rbm -> sample -> vec;
  input_one_t : sample -> vec;             (* the constructor input_one_t(item_data) *)
  (* std::is_same<input_one_t, Iterator::value_type>: the evidence, when the
     samples of a training range are of the layer's input type *)
  value_type_is_input_one_t : option (sample = vec);
  (* what slot i of a buffer holds when the layer's allocator returns it *)
  fresh_slot : nat -> weight;
  (* whole-dataset training, rbm.train<...>(first, last, max_epochs) *)
  train : rbm -> list vec -> nat -> rbm;
  (* activations *)
  activate_one : rbm -> vec -> vec;                    (* activate_one(input, h_a) *)
  activate_one_s : rbm -> vec -> vec * vec;            (* activate_one(input, h_a, h_s) *)
  activate_many : rbm -> list vec -> list vec * list vec;
  activate_hidden : rbm -> vec -> vec -> vec * vec;    (* (v_a, v_s) to (h_a, h_s) *)
  activate_visible : rbm -> vec -> vec -> vec * vec;   (* (h_a, h_s) to (v_a, v_s) *)
  (* persistence *)
  store_rbm : rbm -> list Byte.byte;
  load_rbm : rbm -> list Byte.byte -> rbm * list Byte.byte;
  (* rbm_trainer<rbm_t, ...> *)
  init_training : rbm -> list sample -> rbm_trainer * rbm;
  init_epoch : rbm_trainer -> rbm_trainer;
  train_sub : list vec -> rbm_trainer -> rbm_training_context -> rbm ->
              rbm_trainer * rbm_training_context * rbm;
  finalize_epoch : nat -> rbm_trainer -> rbm_training_context -> rbm -> rbm_trainer * rbm;
  finalize_training : rbm_trainer -> rbm -> rbm;
}.

(** One element of [tuples]: the layer's type and the object's content. *)
Abbreviation layer_t := (rbm_type * rbm)%type.

(** Modelled from the spec: the layers' allocators [prepare_one_output()],
    [prepare_one_output(is_last, labels)], [prepare_one_input()],
    [prepare_output(n)] and [prepare_output(n, is_last, labels)] are defined
    in the rbm headers, outside this file.  The specification gives the
    widths: an output buffer has [output_size] slots, the enlarged one
    [output_size + label_count], an input buffer [input_size].  What a new
    slot holds is said nowhere: it is the layer type's [fresh_slot], any
    value. *)
Definition prepare_one_output `{Domain} (t : rbm_type) (is_last : bool) (labels : nat) : vec :=
  fresh_slot t <$> seq 0 (output_size t + (if is_last then labels else 0)).

Definition prepare_one_input `{Domain} (t : rbm_type) : vec :=
  fresh_slot t <$> seq 0 (input_size t).

Definition prepare_output `{Domain} (t : rbm_type) (n : nat) (is_last : bool) (labels : nat)
  : list vec :=
  replicate n (prepare_one_output t is_last labels).

(** ** Inference *)

(** [activation_probabilities<I, S>(input, result)] over the layers
    [I .. S-1], given as the list [ls]. *)
Fixpoint activation_probabilities_rec `{Domain} (ls : list layer_t) (input result : vec) : vec :=
  match ls with
  | [] => result
  | l :: ls' =>
      match ls' with
      | [] => activate_one l.1 l.2 input
      | _ :: _ => activation_probabilities_rec ls' (activate_one l.1 l.2 input) result
      end
  end.

(** [std::max_element(first, last)] as an index into the range: the scan
    keeps the first largest element; an empty range gives [last], index 0. *)
Fixpoint max_element_scan `{Domain} (largest_i : nat) (largest : weight) (i : nat) (l : vec) : nat :=
  match l with
  | [] => largest_i
  | x :: l' =>
      if w_ltb largest x then max_element_scan i x (S i) l'
      else max_element_scan largest_i largest (S i) l'
  end.

Definition max_element `{Domain} (l : vec) : nat :=
  match l with
  | [] => 0
  | x :: l' => max_element_scan 0 x 1 l'
  end.

Definition predict_label `{Domain} (result : vec) : nat := max_element result.

(** ** The network *)

(** The SVM bridge of [svm_common.hpp] and libsvm, as the orchestrator calls
    it.  Labels are indices. *)
Class svm_lib `{Domain} := {
  svm_model_t : Type;
  svm_problem_t : Type;
  svm_parameter : Type;
  svm_rbf_grid : Type;
  default_svm_parameters : svm_parameter;
  svm_make_problem : list nat -> list vec -> bool -> svm_problem_t;
  svm_check : svm_problem_t -> svm_parameter -> bool;
  svm_train_model : svm_problem_t -> svm_parameter -> svm_model_t;
  svm_predict_model : svm_model_t -> vec -> nat;
  (* svm_store(dbn, os) and svm_load(dbn, is) *)
  svm_store : svm_model_t -> bool -> list Byte.byte;
  svm_load : svm_model_t -> bool -> list Byte.byte -> svm_model_t * bool * list Byte.byte;
}.

(** The compile-time switches: [desc::BatchSize], the [dbn_traits] and the
    macro [DLL_SVM_SUPPORT]. *)
Record dbn_traits := {
  BatchSize : nat;
  save_memory : bool;
  concatenate : bool;
  scale : bool;
  DLL_SVM_SUPPORT : bool;
}.

(** The object: the layer stack and the classifier fields.  The training
    constants ([learning_rate], [momentum], ...) are read by the layers'
    trainers only. *)
Record dbn `{svm_lib} := {
  tuples : list layer_t;
  svm_model : svm_model_t;
  problem : svm_problem_t;
  svm_loaded : bool;
}.

Definition set_tuples `{svm_lib} (d : dbn) (ts : list layer_t) : dbn :=
  {| tuples := ts; svm_model := svm_model d; problem := problem d; svm_loaded := svm_loaded d |}.

Definition full_output_size `{svm_lib} (d : dbn) : nat :=
  foldl (fun output l => output + output_size l.1) 0 (tuples d).

(** [activation_probabilities(item_data)]; [layer<0>] exists in every
    instantiation, the empty stack only makes the definition total. *)
Definition activation_probabilities `{svm_lib} (d : dbn) (item_data : sample) : vec :=
  match tuples d, last (tuples d) with
  | l0 :: _, Some ln =>
      let result := prepare_one_output ln.1 false 0 in
      let data := convert_sample l0.1 l0.2 item_data in
      activation_probabilities_rec (tuples d) data result
  | _, _ => []
  end.

(** [for (auto& value : next_a) result[i++] = value;] *)
Fixpoint append_at `{Domain} (next_a : vec) (i : nat) (result : vec)
  : outcome (nat * vec) :=
  match next_a with
  | [] => Ok (i, result)
  | value :: rest => r ← write_at i value result; append_at rest (S i) r
  end.

Fixpoint full_activation_probabilities_rec `{Domain} (ls : list layer_t) (input : vec)
    (i : nat) (result : vec) : outcome (nat * vec) :=
  match ls with
  | [] => Ok (i, result)
  | l :: ls' =>
      let '(next_a, next_s) := activate_one_s l.1 l.2 input in
      '(i', r) ← append_at next_a i result;
      full_activation_probabilities_rec ls' next_a i' r
  end.

Definition full_activation_probabilities `{svm_lib} (d : dbn) (item_data : sample) : outcome vec :=
  match tuples d with
  | l0 :: _ =>
      let result := replicate (full_output_size d) w_zero in
      let data := convert_sample l0.1 l0.2 item_data in
      snd <$> full_activation_probabilities_rec (tuples d) data 0 result
  | [] => Ok []
  end.

Definition predict `{svm_lib} (d : dbn) (item : sample) : nat :=
  predict_label (activation_probabilities d item).

(** ** Prediction with labels *)

(** [for (i = 0; i < next_a.size(); ++i) big_next_a[i] = next_a[i];] *)
Fixpoint copy_from {A} (i : nat) (next_a : list A) (big_next_a : list A) : outcome (list A) :=
  match next_a with
  | [] => Ok big_next_a
  | x :: rest => b ← write_at i x big_next_a; copy_from (S i) rest b
  end.

(** [std::fill(buf.begin() + n, buf.end(), x)] *)
Definition fill_from {A} (n : nat) (x : A) (buf : list A) : outcome (list A) :=
  if decide (n <= length buf) then Ok (take n buf ++ replicate (length buf - n) x)
  else OutOfRange.

(** The enlarged input of the last layer, built in [predict_labels<I>] when
    [I == layers - 2]: the activation, then [std::fill] with 0.1. *)
Definition predict_big_next_a `{Domain} (t : rbm_type) (next_a : vec) (labels : nat)
  : outcome vec :=
  let big_next_a := prepare_one_output t true labels in
  big_next_a ← copy_from 0 next_a big_next_a;
  fill_from (output_size t) w_tenth big_next_a.

(** [predict_labels<I>(input, output, labels)]; [ls] holds the layers
    [I .. layers-1], so that [ls' = []] is [I == layers - 1] and a
    one-element [ls'] is [I == layers - 2]. *)
Fixpoint predict_labels_rec `{Domain} (ls : list layer_t) (input output : vec) (labels : nat)
  : outcome vec :=
  match ls with
  | [] => Ok output
  | l :: ls' =>
      let '(next_a, next_s) := activate_hidden l.1 l.2 input input in
      match ls' with
      | [] =>
          let '(output_a, output_s) := activate_visible l.1 l.2 next_a next_s in
          Ok output_a
      | [_] =>
          big_next_a ← predict_big_next_a l.1 next_a labels;
          predict_labels_rec ls' big_next_a output labels
      | _ :: _ :: _ => predict_labels_rec ls' next_a output labels
      end
  end.

(** The last two layers, [layer<layers - 2>()] and [layer<layers - 1>()]. *)
Definition last_two {A} (l : list A) : option (A * A) :=
  match reverse l with
  | z :: y :: _ => Some (y, z)
  | _ => None
  end.

Definition no_room : string := "There is no room for the labels units".
Definition not_same_number : string := "There must be the same number of values than labels".

(** [dll::input_size(layer<layers - 1>())
       == dll::output_size(layer<layers - 2>()) + labels]
    with [t2] and [t1] the types of the last two layers: the three operands
    are [std::size_t], and so is the sum. *)
Definition room_for_labels `{Domain} (t2 t1 : rbm_type) (labels : nat) : bool :=
  bool_decide (to_size_t (input_size t1) = to_size_t (output_size t2 + labels)).

Definition predict_labels `{svm_lib} (d : dbn) (item_data : sample) (labels : nat) : outcome nat :=
  match tuples d, last_two (tuples d) with
  | l0 :: _, Some (l2, l1) =>
      cpp_assert (room_for_labels l2.1 l1.1 labels) no_room;;
      let item := input_one_t l0.1 item_data in
      let output_a := prepare_one_input l1.1 in
      output_a ← predict_labels_rec (tuples d) item output_a labels;
      if decide (labels <= length output_a)
      then Ok (max_element (drop (length output_a - labels) output_a))
      else OutOfRange
  | _, _ => IllFormed
  end.

(** ** Observable steps of a training call

    The watcher notifications, and the calls into a layer's training code
    with the data they receive. *)
Inductive event `{Domain} : Type :=
  | pretraining_begin (max_epochs : nat)
  | pretrain_layer_event (I : nat) (input_size : nat)   (* watcher.pretrain_layer<rbm_t>(dbn, I, n) *)
  | train_event (I : nat) (input : list vec) (max_epochs : nat)   (* layer<I>().train(...) *)
  | collect_event (I : nat) (input : list vec)          (* one big batch pushed through layers 0..I-1 *)
  | train_sub_event (I : nat) (batch : list vec)        (* r_trainer.train_sub(...) on layer<I>() *)
  | pretraining_end.




(** ** Training with labels *)

(** [for (j = 0; j < next_a[i].size(); ++j) big_next_a[i][j] = next_a[i][j];] *)
Fixpoint copy_row {A} (i j : nat) (row : list A) (big_next_a : list (list A))
  : outcome (list (list A)) :=
  match row with
  | [] => Ok big_next_a
  | x :: rest => b ← write_at2 i j x big_next_a; copy_row i (S j) rest b
  end.

Fixpoint copy_rows {A} (i : nat) (next_a : list (list A)) (big_next_a : list (list A))
  : outcome (list (list A)) :=
  match next_a with
  | [] => Ok big_next_a
  | row :: rest => b ← copy_row i 0 row big_next_a; copy_rows (S i) rest b
  end.

(** [for (l = 0; l < labels; ++l)
       big_next_a[i][output_size(rbm) + l] = label == l ? 1.0 : 0.0;]
    with [ls] the values [l] still to visit. *)
Fixpoint write_label `{Domain} (i out label : nat) (ls : list nat) (big_next_a : list vec)
  : outcome (list vec) :=
  match ls with
  | [] => Ok big_next_a
  | l :: rest =>
      b ← write_at2 i (out + l) (if decide (label = l) then w_one else w_zero) big_next_a;
      write_label i out label rest b
  end.

(** [while (lit != lend) { ...; ++i; ++lit; }] *)
Fixpoint write_labels `{Domain} (i out labels : nat) (lit : list nat) (big_next_a : list vec)
  : outcome (list vec) :=
  match lit with
  | [] => Ok big_next_a
  | label :: rest =>
      b ← write_label i out label (seq 0 labels) big_next_a;
      write_labels (S i) out labels rest b
  end.

(** The enlarged input of the last layer, built in [train_with_labels<I>]
    when [I == layers - 2] for [n = input.size()] samples: the activations,
    then the labels one-hot. *)
Definition train_big_next_a `{Domain} (t : rbm_type) (n : nat) (next_a : list vec)
    (lit : list nat) (labels : nat) : outcome (list vec) :=
  let big_next_a := prepare_output t n true labels in
  big_next_a ← copy_rows 0 next_a big_next_a;
  write_labels 0 (output_size t) labels lit big_next_a.

(** [train_with_labels<I>(input, watcher, lit, lend, labels, max_epochs)]
    on the layers [ls = I .. layers-1]; returns these layers as trained and
    the steps taken. *)
Fixpoint train_with_labels_rec `{Domain} (I : nat) (ls : list layer_t) (input : list vec)
    (lit : list nat) (labels max_epochs : nat) : outcome (list layer_t * list event) :=
  match ls with
  | [] => Ok ([], [])
  | l :: ls' =>
      let t := l.1 in
      let rbm := train t l.2 input max_epochs in
      let steps := [pretrain_layer_event I (length input); train_event I input max_epochs] in
      match ls' with
      | [] => Ok ([(t, rbm)], steps)
      | _ :: more =>
          let '(next_a, next_s) := activate_many t rbm input in
          match more with
          | [] =>
              big_next_a ← train_big_next_a t (length input) next_a lit labels;
              '(trained, steps') ← train_with_labels_rec (S I) ls' big_next_a [] labels max_epochs;
              Ok ((t, rbm) :: trained, steps ++ steps')
          | _ :: _ =>
              '(trained, steps') ← train_with_labels_rec (S I) ls' next_a lit labels max_epochs;
              Ok ((t, rbm) :: trained, steps ++ steps')
          end
      end
  end.

(** The iterator overload. *)
Definition train_with_labels_range `{svm_lib} (d : dbn) (training_data : list sample)
    (training_labels : list nat) (labels max_epochs : nat) : outcome (dbn * list event) :=
  match tuples d, last_two (tuples d) with
  | l0 :: _, Some (l2, l1) =>
      cpp_assert (bool_decide (length training_data = length training_labels)) not_same_number;;
      cpp_assert (room_for_labels l2.1 l1.1 labels) no_room;;
      let data := convert_input l0.1 l0.2 training_data in
      '(trained, steps) ← train_with_labels_rec 0 (tuples d) data training_labels labels max_epochs;
      Ok (set_tuples d trained, [pretraining_begin max_epochs] ++ steps ++ [pretraining_end])
  | _, _ => IllFormed
  end.

(** The container overload: it checks, then forwards to the range overload,
    which checks again. *)
Definition train_with_labels `{svm_lib} (d : dbn) (training_data : list sample)
    (training_labels : list nat) (labels max_epochs : nat) : outcome (dbn * list event) :=
  match last_two (tuples d) with
  | Some (l2, l1) =>
      cpp_assert (bool_decide (length training_data = length training_labels)) not_same_number;;
      cpp_assert (room_for_labels l2.1 l1.1 labels) no_room;;
      train_with_labels_range d training_data training_labels labels max_epochs
  | None => IllFormed
  end.

(** ** Pretraining, full-materialization mode *)

(** [train_next<I>::value], read off the layers [I .. layers-1]: true below
    the last index, [pretrain_last()] at the last index, false past it. *)
Definition train_next `{Domain} (ls : list layer_t) : bool :=
  match ls with
  | [] => false
  | [l] => pretrain_last l.1
  | _ :: _ :: _ => true
  end.

(** [fast_distance(first, last)]: the distance for random-access iterators,
    0 otherwise. *)
Definition fast_distance {A} (random_access : bool) (range : list A) : nat :=
  if random_access then length range else 0.

(** [pretrain_layer<I>(first, last, watcher, max_epochs)] on the layers
    [ls = I .. layers-1]. *)
Fixpoint pretrain_layer `{Domain} (I : nat) (ls : list layer_t) (random_access : bool)
    (input : list vec) (max_epochs : nat) : outcome (list layer_t * list event) :=
  match ls with
  | [] => Ok ([], [])
  | l :: ls' =>
      let t := l.1 in
      let rbm := train t l.2 input max_epochs in
      let steps := [pretrain_layer_event I (fast_distance random_access input);
                    train_event I input max_epochs] in
      if train_next ls' then
        let next_a := prepare_output t (length input) false 0 in
        next_a ← foreach_i (fun v _ => activate_one t rbm v) 0 input next_a;
        '(trained, steps') ← pretrain_layer (S I) ls' true next_a max_epochs;
        Ok ((t, rbm) :: trained, steps ++ steps')
      else Ok ((t, rbm) :: ls', steps)
  end.

(** ** Pretraining, batch mode *)

(** [batch_layer_ignore<I>::value] for [I < layers]. *)
Definition batch_layer_ignore `{Domain} (t : rbm_type) : bool :=
  is_pooling_layer t || negb (pretrain_last t).

(** [for (epoch = 0; epoch < max_epochs; ++epoch) body], with [n] epochs
    left. *)
Fixpoint epoch_loop {St} (n epoch : nat) (body : nat -> St -> outcome St) (s : St)
  : outcome St :=
  match n with
  | 0 => Ok s
  | S n' => s' ← body epoch s; epoch_loop n' (S epoch) body s'
  end.

(** [while (it != end) { batch_start = it; advance it by at most
    big_batch_size; body(batch_start, it); }].  A turn of the loop consumes
    [big_batch_size] samples, so [fuel] turns suffice when it is at least the
    number of samples and [big_batch_size] is positive; with
    [big_batch_size = 0] the source loops forever. *)
Fixpoint batch_loop {A St} (fuel big_batch_size : nat) (body : list A -> St -> outcome St)
    (it : list A) (s : St) : outcome St :=
  match it with
  | [] => Ok s
  | _ :: _ =>
      match fuel with
      | 0 => Diverges
      | S fuel' =>
          s' ← body (take big_batch_size it) s;
          batch_loop fuel' big_batch_size body (drop big_batch_size it) s'
      end
  end.

(** What one layer's batch training carries from turn to turn: the trainer,
    the layer, the buffer of activated inputs, and the steps so far. *)
Record batch_state `{Domain} := {
  bs_trainer : rbm_trainer;
  bs_rbm : rbm;
  bs_activated_input : list vec;
  bs_steps : list event;
}.

(** One turn of the batch loop of [pretrain_layer_batch<I>].  [collect]
    turns the slice of raw samples into the batch handed to [train_sub],
    updating the activated-input buffer on the way. *)
Definition train_big_batch `{Domain} (I : nat) (t : rbm_type)
    (collect : rbm -> list sample -> list vec -> outcome (list vec * list vec * list event))
    (batch : list sample) (cs : rbm_training_context * batch_state)
  : outcome (rbm_training_context * batch_state) :=
  let '(context, s) := cs in
  '(activated_input, input, steps) ← collect (bs_rbm s) batch (bs_activated_input s);
  let '(r_trainer, context, rbm) := train_sub t input (bs_trainer s) context (bs_rbm s) in
  Ok (context, {| bs_trainer := r_trainer; bs_rbm := rbm;
                  bs_activated_input := activated_input;
                  bs_steps := bs_steps s ++ steps ++ [train_sub_event I input] |}).

(** One epoch: a fresh context, [init_epoch], the batch loop,
    [finalize_epoch]. *)
Definition pretrain_epoch `{Domain} (I : nat) (t : rbm_type) (big_batch_size : nat)
    (collect : rbm -> list sample -> list vec -> outcome (list vec * list vec * list event))
    (samples : list sample) (epoch : nat) (s : batch_state) : outcome batch_state :=
  let context := ctx_new in
  let r_trainer := init_epoch t (bs_trainer s) in
  '(context, s) ← batch_loop (length samples) big_batch_size (train_big_batch I t collect)
      samples (context, {| bs_trainer := r_trainer; bs_rbm := bs_rbm s;
                           bs_activated_input := bs_activated_input s;
                           bs_steps := bs_steps s |});
  let '(r_trainer, rbm) := finalize_epoch t epoch (bs_trainer s) context (bs_rbm s) in
  Ok {| bs_trainer := r_trainer; bs_rbm := rbm;
        bs_activated_input := bs_activated_input s; bs_steps := bs_steps s |}.

(** The epochs of [pretrain_layer_batch<I>]. *)
Definition pretrain_epochs `{Domain} (I : nat) (t : rbm_type) (big_batch_size : nat)
    (collect : rbm -> list sample -> list vec -> outcome (list vec * list vec * list event))
    (samples : list sample) (max_epochs : nat) (s : batch_state) : outcome batch_state :=
  epoch_loop max_epochs 0 (pretrain_epoch I t big_batch_size collect samples) s.

(** The body of [pretrain_layer_batch<I>] for a trained layer, without the
    recursive call: [I == 0] when [done] is empty, [I > 0] otherwise, with
    [done] the layers [0 .. I-1] as trained so far. *)
Definition pretrain_one_batch `{Domain} (cfg : dbn_traits) (done : list layer_t) (l : layer_t)
    (samples : list sample) (max_epochs : nat) : outcome (layer_t * list event) :=
  let I := length done in
  let t := l.1 in
  let '(r_trainer, rbm) := init_training t l.2 samples in
  let big_batch_size := BatchSize cfg * get_batch_size t rbm in
  let start activated_input :=
    {| bs_trainer := r_trainer; bs_rbm := rbm; bs_activated_input := activated_input;
       bs_steps := [pretrain_layer_event I 0] |} in
  s ← match done, last done with
      | l0 :: _, Some prev =>
          let activated_input := prepare_output prev.1 big_batch_size false 0 in
          pretrain_epochs I t big_batch_size (fun _ batch activated_input =>
              let input := convert_input l0.1 l0.2 batch in
              activated_input ← foreach_i (activation_probabilities_rec done) 0 input activated_input;
              Ok (activated_input, activated_input, [collect_event I input]))
            samples max_epochs (start activated_input)
      | _, _ =>
          pretrain_epochs I t big_batch_size (fun rbm batch activated_input =>
              Ok (activated_input, convert_input t rbm batch, []))
            samples max_epochs (start [])
      end;
  Ok ((t, finalize_training t (bs_trainer s) (bs_rbm s)), bs_steps s).

(** [pretrain_layer_batch<I>(first, last, watcher, max_epochs)]: [done] are
    the layers [0 .. I-1], [ls] the layers [I .. layers-1].  At [I == 0] the
    first overload is enabled whatever the layer; were
    [batch_layer_ignore<0>] true as well, the call would be ambiguous. *)
Fixpoint pretrain_layer_batch `{Domain} (cfg : dbn_traits) (done ls : list layer_t)
    (samples : list sample) (max_epochs : nat) : outcome (list layer_t * list event) :=
  match ls with
  | [] => Ok (done, [])
  | l :: ls' =>
      if batch_layer_ignore l.1 then
        match done with
        | [] => IllFormed
        | _ :: _ => pretrain_layer_batch cfg (done ++ [l]) ls' samples max_epochs
        end
      else
        '(l', steps) ← pretrain_one_batch cfg done l samples max_epochs;
        '(trained, steps') ← pretrain_layer_batch cfg (done ++ [l']) ls' samples max_epochs;
        Ok (trained, steps ++ steps')
  end.

(** A sample of a range whose [value_type] is the layer's [input_one_t],
    seen as the layer input that it is. *)
Definition as_input_one_t `{Domain} (same : sample = vec) (s : sample) : vec :=
  eq_rect sample (fun T => T) s vec same.

(** [input_converter<Layer, Iterator>]: what [begin()] and [end()] span.
    The primary template holds [layer.convert_input(first, last)]; the
    specialization for a range whose [value_type] is the layer's
    [input_one_t] hands out the range itself, and calls nothing. *)
Definition input_converter `{Domain} (layer : layer_t) (range : list sample) : list vec :=
  match value_type_is_input_one_t layer.1 with
  | Some same => as_input_one_t same <$> range
  | None => convert_input layer.1 layer.2 range
  end.

(** [pretrain(first, last, max_epochs)].  The choice of the mode is an
    ordinary [if]: both branches are compiled whatever [save_memory()] says,
    so that the call [pretrain_layer_batch<0>] of the first branch has to be
    well-formed in the full mode too. *)
Definition pretrain `{svm_lib} (cfg : dbn_traits) (d : dbn) (random_access : bool)
    (training_data : list sample) (max_epochs : nat) : outcome (dbn * list event) :=
  '(trained, steps) ←
    (if save_memory cfg then pretrain_layer_batch cfg [] (tuples d) training_data max_epochs
     else
       match tuples d with
       | l0 :: _ =>
           if batch_layer_ignore l0.1 then IllFormed
           else
             let converter := input_converter l0 training_data in
             pretrain_layer 0 (tuples d) random_access converter max_epochs
       | [] => IllFormed
       end);
  Ok (set_tuples d trained, [pretraining_begin max_epochs] ++ steps ++ [pretraining_end]).

(** ** Persistence

    An output stream is the list of bytes written so far, an input stream
    the list of bytes still to read. *)
Definition store_layer `{Domain} (layer : layer_t) (os : list Byte.byte) : list Byte.byte :=
  if is_pooling_layer layer.1 then os else os ++ store_rbm layer.1 layer.2.

Definition load_layer `{Domain} (layer : layer_t) (ins : list Byte.byte)
  : layer_t * list Byte.byte :=
  if is_pooling_layer layer.1 then (layer, ins)
  else let '(rbm, ins) := load_rbm layer.1 layer.2 ins in ((layer.1, rbm), ins).

(** [cpp::for_each(tuples, ...)] with [load_layer(layer, is)], [ins] being
    the stream [is]. *)
Fixpoint load_layers `{Domain} (ls : list layer_t) (ins : list Byte.byte)
  : list layer_t * list Byte.byte :=
  match ls with
  | [] => ([], ins)
  | layer :: ls' =>
      let '(layer, ins) := load_layer layer ins in
      let '(ls', ins) := load_layers ls' ins in
      (layer :: ls', ins)
  end.

Definition store `{svm_lib} (cfg : dbn_traits) (d : dbn) (os : list Byte.byte) : list Byte.byte :=
  let os := foldl (fun os layer => store_layer layer os) os (tuples d) in
  if DLL_SVM_SUPPORT cfg then os ++ svm_store (svm_model d) (svm_loaded d) else os.

Definition load `{svm_lib} (cfg : dbn_traits) (d : dbn) (ins : list Byte.byte)
  : dbn * list Byte.byte :=
  let '(ls, ins) := load_layers (tuples d) ins in
  if DLL_SVM_SUPPORT cfg then
    let '(model, loaded, ins) := svm_load (svm_model d) (svm_loaded d) ins in
    ({| tuples := ls; svm_model := model; problem := problem d; svm_loaded := loaded |}, ins)
  else (set_tuples d ls, ins).

(** ** SVM training on the extracted features *)

(** The two-argument overloads, which fill a result the caller allocated. *)
Definition activation_probabilities_into `{svm_lib} (d : dbn) (item_data : sample) (result : vec)
  : vec :=
  match tuples d with
  | l0 :: _ => activation_probabilities_rec (tuples d) (convert_sample l0.1 l0.2 item_data) result
  | [] => result
  end.

Definition full_activation_probabilities_into `{svm_lib} (d : dbn) (item_data : sample)
    (result : vec) : outcome vec :=
  match tuples d with
  | l0 :: _ =>
      snd <$> full_activation_probabilities_rec (tuples d) (convert_sample l0.1 l0.2 item_data)
                0 result
  | [] => Ok result
  end.

Definition add_activation_probabilities `{svm_lib} (cfg : dbn_traits) (d : dbn)
    (result : list vec) (item : sample) : outcome (list vec) :=
  if concatenate cfg then
    back ← full_activation_probabilities_into d item (replicate (full_output_size d) w_zero);
    Ok (result ++ [back])
  else
    match last (tuples d) with
    | Some ln =>
        Ok (result ++ [activation_probabilities_into d item (prepare_one_output ln.1 false 0)])
    | None => IllFormed
    end.

Fixpoint collect_samples `{svm_lib} (cfg : dbn_traits) (d : dbn) (svm_samples : list vec)
    (training_data : list sample) : outcome (list vec) :=
  match training_data with
  | [] => Ok svm_samples
  | item :: rest =>
      svm_samples ← add_activation_probabilities cfg d svm_samples item;
      collect_samples cfg d svm_samples rest
  end.

Definition set_problem `{svm_lib} (d : dbn) (p : svm_problem_t) : dbn :=
  {| tuples := tuples d; svm_model := svm_model d; problem := p; svm_loaded := svm_loaded d |}.

Definition make_problem `{svm_lib} (cfg : dbn_traits) (d : dbn) (training_data : list sample)
    (labels : list nat) (scale : bool) : outcome dbn :=
  svm_samples ← collect_samples cfg d [] training_data;
  Ok (set_problem d (svm_make_problem labels svm_samples scale)).

Definition svm_train `{svm_lib} (cfg : dbn_traits) (d : dbn) (training_data : list sample)
    (labels : list nat) (parameters : svm_parameter) : outcome (dbn * bool) :=
  d ← make_problem cfg d training_data labels (scale cfg);
  if negb (svm_check (problem d) parameters) then Ok (d, false)
  else
    Ok ({| tuples := tuples d; svm_model := svm_train_model (problem d) parameters;
           problem := problem d; svm_loaded := true |}, true).

(** [svm::rbf_grid_search] reports its findings on the console and leaves
    the network alone. *)
Definition svm_grid_search `{svm_lib} (cfg : dbn_traits) (d : dbn) (training_data : list sample)
    (labels : list nat) (n_fold : nat) (g : svm_rbf_grid) : outcome (dbn * bool) :=
  d ← make_problem cfg d training_data labels (scale cfg);
  let parameters := default_svm_parameters in
  if negb (svm_check (problem d) parameters) then Ok (d, false)
  else Ok (d, true).

(** ** The final features and the classifier's answer *)

(** The network's [output_size()]: the output width of the last layer. *)
Definition dbn_output_size `{svm_lib} (d : dbn) : nat :=
  match last (tuples d) with
  | Some ln => output_size ln.1
  | None => 0
  end.

(** [get_final_activation_probabilities(sample)]: the overload that
    [dbn_traits::concatenate()] enables. *)
Definition get_final_activation_probabilities `{svm_lib} (cfg : dbn_traits) (d : dbn)
    (item : sample) : outcome vec :=
  if concatenate cfg then full_activation_probabilities d item
  else Ok (activation_probabilities d item).

(** [svm_predict(sample)]: the label [svm::predict] answers for the sample's
    final features. *)
Definition svm_predict `{svm_lib} (cfg : dbn_traits) (d : dbn) (item : sample) : outcome nat :=
  feats ← get_final_activation_probabilities cfg d item;
  Ok (svm_predict_model (svm_model d) feats).

(** ** What the properties say about the layers

    The orchestrator is generic in its layers; a property that compares two
    of its paths, or that speaks of widths, holds for layers whose
    operations agree with each other in the sense below. *)

(** A size that [std::size_t] can hold. *)
Definition fits_size_t `{Domain} (n : nat) : Prop := (N.of_nat n <= SIZE_MAX)%N.

(** [activate_one] fills a buffer of [output_size] slots. *)
Definition fills_output `{Domain} (t : rbm_type) : Prop :=
  forall w v, length (activate_one t w v) = output_size t.

(** The three-argument [activate_one] computes the same activation as the
    two-argument one. *)
Definition one_s_agrees `{Domain} (t : rbm_type) : Prop :=
  forall w v, (activate_one_s t w v).1 = activate_one t w v.

(** [activate_hidden(h_a, h_s, v, v)] computes the activation of
    [activate_one]. *)
Definition hidden_agrees `{Domain} (t : rbm_type) : Prop :=
  forall w v, (activate_hidden t w v v).1 = activate_one t w v.

(** [activate_many] computes [activate_one] sample by sample. *)
Definition many_agrees `{Domain} (t : rbm_type) : Prop :=
  forall w vs, (activate_many t w vs).1 = map (activate_one t w) vs.

(** [convert_input] converts sample by sample: as many vectors come out as
    samples go in. *)
Definition converts_each `{Domain} (t : rbm_type) : Prop :=
  forall w samples, length (convert_input t w samples) = length samples.

(** [operator<] on weights is a strict weak ordering, as [std::max_element]
    requires of its comparison. *)
Record strict_weak_order `{Domain} : Prop := {
  ltb_irrefl : forall a, w_ltb a a = false;
  ltb_trans : forall a b c, w_ltb a b = true -> w_ltb b c = true -> w_ltb a c = true;
  ltb_cotrans : forall a b c, w_ltb a b = true -> w_ltb a c = true \/ w_ltb c b = true;
}.

(** The outputs of the layers [ls] along the forward chain of
    [activation_probabilities], first layer first. *)
Fixpoint activation_chain `{Domain} (ls : list layer_t) (input : vec) : list vec :=
  match ls with
  | [] => []
  | l :: ls' => let next_a := activate_one l.1 l.2 input in next_a :: activation_chain ls' next_a
  end.

(** The sample as [activation_probabilities] hands it to layer 0. *)
Definition converted_sample `{svm_lib} (d : dbn) (item_data : sample) : vec :=
  match tuples d with
  | l0 :: _ => convert_sample l0.1 l0.2 item_data
  | [] => []
  end.


(** The one-hot encoding of a label among [labels] classes, as the
    specification words it: 1.0 at the label's index, 0.0 elsewhere. *)
Definition one_hot `{Domain} (labels label : nat) : vec :=
  map (fun l => if decide (l = label) then w_one else w_zero) (seq 0 labels).

(** The activations of [input] under a layer, each followed by the one-hot
    encoding of its sample's label. *)
Definition augmented `{Domain} (t : rbm_type) (w : rbm) (input : list vec) (lit : list nat)
    (labels : nat) : list vec :=
  zip_with (fun a label => a ++ one_hot labels label) (map (activate_one t w) input) lit.

(** The bidirectional query of the last layer: hidden activation of [input],
    then the visible activation reconstructed from it. *)
Definition reconstruct `{Domain} (l : layer_t) (input : vec) : vec :=
  (activate_visible l.1 l.2 (activate_hidden l.1 l.2 input input).1
                            (activate_hidden l.1 l.2 input input).2).1.

(** The bytes a layer contributes to the persisted model, as the
    specification words it: nothing for a pooling layer. *)
Definition layer_block `{Domain} (l : layer_t) : list Byte.byte :=
  if is_pooling_layer l.1 then [] else store_rbm l.1 l.2.

(** The feature vector the classifier sees for a sample: all layers'
    outputs when [concatenate] is set, the last layer's otherwise. *)
Definition features `{svm_lib} (cfg : dbn_traits) (d : dbn) (item : sample) : vec :=
  if concatenate cfg then concat (activation_chain (tuples d) (converted_sample d item))
  else activation_probabilities d item.

(** A layer reads back the content it wrote, and leaves the rest of the
    stream. *)
Definition loads_what_it_stores `{Domain} (t : rbm_type) : Prop :=
  forall w w' rest, load_rbm t w (store_rbm t w' ++ rest) = (w', rest).

(** A layer without parameters: what it computes does not depend on the
    object's content. *)
Definition parameter_free `{Domain} (t : rbm_type) : Prop :=
  forall w w', (forall v, activate_one t w v = activate_one t w' v)
               /\ (forall s, convert_sample t w s = convert_sample t w' s).

(** The stack after loading into [target] what [stored] wrote: a loaded
    layer has the stored content, a pooling layer is left as it was. *)
Definition restored `{Domain} (stored target : list layer_t) : list layer_t :=
  zip_with (fun l l' => if is_pooling_layer l.1 then l' else l) stored target.

(** Two layers that compute the same. *)
Definition same_activation `{Domain} (l l' : layer_t) : Prop :=
  l.1 = l'.1
  /\ (forall v, activate_one l.1 l.2 v = activate_one l'.1 l'.2 v)
  /\ (forall s, convert_sample l.1 l.2 s = convert_sample l'.1 l'.2 s).

(** *** When the two pretraining modes can be compared

    The batch mode drives a layer's trainer itself, big batch by big batch;
    the full mode calls the layer's [train].  The two can agree only for a
    layer whose [train] is that same protocol. *)

(** The slices the batch loop cuts off a range: runs of [n] elements, the
    last one possibly shorter. *)
Fixpoint chunks {A} (fuel n : nat) (l : list A) : list (list A) :=
  match l, fuel with
  | [], _ => []
  | _ :: _, 0 => []
  | _ :: _, S fuel' => take n l :: chunks fuel' n (drop n l)
  end.






(** [convert_input] applies [f] to every sample, whatever the layer holds. *)
Definition converts_with `{Domain} (f : sample -> vec) (t : rbm_type) : Prop :=
  forall w samples, convert_input t w samples = map f samples.


(** A sample carried through the layers [done]. *)
Definition forward `{Domain} (done : list layer_t) (v : vec) : vec :=
  foldl (fun x l => activate_one l.1 l.2 x) v done.




(** Running [body] over the batches in turn. *)
Fixpoint run_all {A St} (body : list A -> St -> outcome St) (batches : list (list A)) (s : St)
  : outcome St :=
  match batches with
  | [] => Ok s
  | batch :: rest => s' ← body batch s; run_all body rest s'
  end.


(** A call that ends otherwise than by a failed [cpp_assert]. *)
Definition asserts_nothing {A} (m : outcome A) : Prop := forall msg, m <> AssertionFailed msg.


(** *** What the further properties speak of *)

(** The classifier's loader reads the block its writer wrote and leaves the
    rest of the stream: the model-loaded flag comes back, and with it the
    model when there was one. *)
Definition svm_reads_back `{svm_lib} : Prop :=
  forall m loaded m' loaded' rest,
    exists m'', svm_load m' loaded' (svm_store m loaded ++ rest) = (m'', loaded, rest)
                /\ (loaded = true -> m'' = m).

(** The steps of training layer after layer on whole datasets, from index
    [I] on: for each input in turn, the watcher is told its size and the
    layer is trained on it. *)
Fixpoint layer_steps `{Domain} (I : nat) (max_epochs : nat) (inputs : list (list vec))
  : list event :=
  match inputs with
  | [] => []
  | input :: rest =>
      pretrain_layer_event I (length input) :: train_event I input max_epochs
        :: layer_steps (S I) max_epochs rest
  end.

(** The number of layers the full-materialization mode trains in the stack
    [l :: ls]: all of them, but for a last layer above layer 0 that is not
    marked [pretrain_last]. *)
Definition trained_layers `{Domain} (ls : list layer_t) : nat :=
  match last ls with
  | None => 1
  | Some ln => if pretrain_last ln.1 then S (length ls) else length ls
  end.

(** A notification of the watcher that a layer's pretraining begins, with
    no sample count. *)
Definition notifies_only `{Domain} (e : event) : Prop :=
  exists I, e = pretrain_layer_event I 0.

(** A buffer after its first slots were overwritten with [fresh]: the
    other slots hold what they held. *)
Definition refill {A} (fresh buf : list A) : list A := fresh ++ drop (length fresh) buf.

(** The steps of one epoch of batch training above layer 0, and the buffer
    of activated inputs it leaves: each batch is converted, carried through
    the layers below into the first slots of the buffer, and the whole
    buffer is handed to [train_sub]. *)
Fixpoint upper_batch_steps `{Domain} (I : nat) (conv : list sample -> list vec)
    (fwd : vec -> vec) (buf : list vec) (batches : list (list sample))
  : list event * list vec :=
  match batches with
  | [] => ([], buf)
  | batch :: rest =>
      let buf' := refill (map fwd (conv batch)) buf in
      let '(steps, final) := upper_batch_steps I conv fwd buf' rest in
      (collect_event I (conv batch) :: train_sub_event I buf' :: steps, final)
  end.

(** The same over [n] epochs: the buffer lives on from epoch to epoch. *)
Fixpoint upper_epochs_steps `{Domain} (n I : nat) (conv : list sample -> list vec)
    (fwd : vec -> vec) (buf : list vec) (batches : list (list sample))
  : list event * list vec :=
  match n with
  | 0 => ([], buf)
  | S n' =>
      let '(steps, buf') := upper_batch_steps I conv fwd buf batches in
      let '(steps', final) := upper_epochs_steps n' I conv fwd buf' batches in
      (steps ++ steps', final)
  end.

(** A step that hands [train_sub] exactly [n] vectors, or is no training
    call. *)
Definition trains_on_exactly `{Domain} (n : nat) (e : event) : Prop :=
  match e with
  | train_sub_event _ batch => length batch = n
  | _ => True
  end.

(** ** A concrete instance

    Weights are rationals, [std::size_t] has 64 bits, a sample is a vector
    of weights, the input type of the layers, and a layer's content is one
    number.  The stub layer shifts its input by its content
    and learns by adding up the (integer parts of the) values it is shown:
    a learning rule whose result can be read off by hand.  A pooling stub
    learns nothing. *)
Module Demo.

Definition Qltb (x y : Q) : bool := negb (Qle_bool y x).

#[global]
Instance domain : Domain := {|
  SIZE_MAX := 18446744073709551615%N;
  weight := Q;
  w_zero := 0%Q;
  w_one := 1%Q;
  w_tenth := (1 # 10)%Q;
  w_ltb := Qltb;
  sample := list Q;
  rbm := nat;
  rbm_trainer := unit;
  rbm_training_context := unit;
  ctx_new := tt;
|}.

Definition units (x : Q) : nat := Z.to_nat (Qfloor x).

(** The sum of everything in a batch. *)
Definition total (batch : list (list Q)) : nat :=
  sum_list (map (fun v => sum_list (map units v)) batch).

Definition act (out w : nat) (v : list Q) : list Q :=
  resize out 0%Q (map (fun x => Qred (x + inject_Z (Z.of_nat w))) v).

(** The content as bytes: [w] times 01, then 00. *)
Definition store_unary (w : nat) : list Byte.byte := replicate w Byte.x01 ++ [Byte.x00].

Fixpoint load_unary (ins : list Byte.byte) : nat * list Byte.byte :=
  match ins with
  | Byte.x01 :: rest => let '(n, rest) := load_unary rest in (S n, rest)
  | Byte.x00 :: rest => (0, rest)
  | _ => (0, ins)
  end.

Definition stub (inp out : nat) (pooling last : bool) : rbm_type := {|
  input_size := inp;
  output_size := out;
  is_pooling_layer := pooling;
  pretrain_last := last;
  get_batch_size := fun _ => 1;
  convert_input := fun _ samples => samples;
  convert_sample := fun _ s => s;
  input_one_t := fun s => s;
  value_type_is_input_one_t := Some eq_refl;
  fresh_slot := fun _ => 0%Q;
  train := fun w input max_epochs =>
    if pooling then w else Nat.iter max_epochs (fun w => w + total input) w;
  activate_one := fun w v => act out (if pooling then 0 else w) v;
  activate_one_s := fun w v =>
    (act out (if pooling then 0 else w) v, act out (if pooling then 0 else w) v);
  activate_many := fun w vs =>
    (map (act out (if pooling then 0 else w)) vs, map (act out (if pooling then 0 else w)) vs);
  activate_hidden := fun w v_a _ =>
    (act out (if pooling then 0 else w) v_a, act out (if pooling then 0 else w) v_a);
  activate_visible := fun _ _ h_s => (resize inp 0%Q h_s, resize inp 0%Q h_s);
  store_rbm := store_unary;
  load_rbm := fun _ ins => load_unary ins;
  init_training := fun w _ => (tt, w);
  init_epoch := fun r => r;
  train_sub := fun batch r context w => (r, context, w + total batch);
  finalize_epoch := fun _ r _ w => (r, w);
  finalize_training := fun _ w => w;
|}.

(** A classifier stand-in: the parameters are valid or not, and a problem
    passes [check] when it also has one label per sample. *)
#[global]
Instance svm : svm_lib := {|
  svm_model_t := nat;
  svm_problem_t := list nat * list (list Q);
  svm_parameter := bool;
  svm_rbf_grid := unit;
  default_svm_parameters := true;
  svm_make_problem := fun labels samples _ => (labels, samples);
  svm_check := fun p parameters => parameters && bool_decide (length p.1 = length p.2);
  svm_train_model := fun p _ => length p.1;
  svm_predict_model := fun m _ => m;
  svm_store := fun m loaded => if loaded then Byte.x01 :: store_unary m else [Byte.x00];
  svm_load := fun m loaded ins =>
    match ins with
    | Byte.x01 :: rest => let '(m, rest) := load_unary rest in (m, true, rest)
    | Byte.x00 :: rest => (m, false, rest)
    | _ => (m, loaded, ins)
    end;
|}.

Definition network (ls : list layer_t) : dbn :=
  {| tuples := ls; svm_model := 0; problem := ([], []); svm_loaded := false |}.

Definition traits (batch : nat) (memory concat : bool) : dbn_traits :=
  {| BatchSize := batch; save_memory := memory; concatenate := concat; scale := false;
     DLL_SVM_SUPPORT := true |}.

(** Three units wide, two layers, nothing learnt yet. *)
Definition net3 : dbn := network [(stub 3 3 false true, 0); (stub 3 3 false true, 0)].

(** Two feature units and room for three label units in the last layer. *)
Definition net_labels : dbn := network [(stub 2 2 false true, 1); (stub 5 5 false true, 2)].

(** One unit wide, two layers. *)
Definition net1 : dbn := network [(stub 1 1 false true, 0); (stub 1 1 false true, 0)].

(** The last layer is no pooling layer and is not pretrained when last. *)
Definition net_softmax : dbn := network [(stub 1 1 false true, 0); (stub 1 1 false false, 0)].

(** Layer 0 is no pooling layer and not marked [pretrain_last]. *)
Definition net_unmarked : dbn := network [(stub 1 1 false false, 0); (stub 1 1 false true, 0)].



(** A pooling layer between two trained layers. *)
Definition net_pool : dbn :=
  network [(stub 2 2 false true, 1); (stub 2 2 true true, 0); (stub 2 2 false true, 3)].

(** The target of a load of [net_pool]: same layer types, other contents. *)
Definition net_pool_fresh : dbn :=
  network [(stub 2 2 false true, 0); (stub 2 2 true true, 7); (stub 2 2 false true, 0)].

Definition s3 : list Q := [(1 # 10)%Q; (9 # 10)%Q; (3 # 10)%Q].
Definition samples3 : list (list Q) := [[1%Q]; [2%Q]; [3%Q]].
Definition samples4 : list (list Q) := [[1%Q]; [2%Q]; [3%Q]; [4%Q]].
Definition data2 : list (list Q) := [[1%Q; 2%Q]; [3%Q; 4%Q]].
Definition labels2 : list nat := [1; 0].

(** The contents of the layers after a run. *)
Definition contents `{svm_lib} (r : outcome (dbn * list event)) : outcome (list rbm) :=
  (fun '(d, _) => map snd (tuples d)) <$> r.

(** [net_pool] with a trained classifier. *)
Definition net_svm : dbn :=
  {| tuples := tuples net_pool; svm_model := 4; problem := ([], []); svm_loaded := true |}.

(** One trained layer below the layer in training. *)
Definition below : list layer_t := [(stub 1 1 false true, 6)].
Definition upper : layer_t := (stub 1 1 false true, 0).

(** The stub's conversion of one sample. *)
Definition convert (s : sample) : vec := s.

End Demo.

(** * Properties *)

(** ** [std::max_element] and [predict] *)

Section MaxElement.
Context `{Domain} (Hord : strict_weak_order).

(** The scan's invariant: [pre] is the part of the range already visited,
    [largest] sits at [largest_i] in it, nothing visited is larger, and
    everything before [largest_i] is strictly smaller. *)
Lemma max_element_scan_spec (l pre : vec) (largest_i : nat) (largest : weight) :
  pre !! largest_i = Some largest ->
  (forall j x, pre !! j = Some x -> w_ltb largest x = false) ->
  (forall j x, j < largest_i -> pre !! j = Some x -> w_ltb x largest = true) ->
  exists m, (pre ++ l) !! max_element_scan largest_i largest (length pre) l = Some m
    /\ (forall j x, (pre ++ l) !! j = Some x -> w_ltb m x = false)
    /\ (forall j x, j < max_element_scan largest_i largest (length pre) l ->
          (pre ++ l) !! j = Some x -> w_ltb x m = true).
Proof.
  revert pre largest_i largest.
  induction l as [|y l IH]; intros pre largest_i largest Hat Hmax Hfirst; simpl.
  - rewrite app_nil_r. eauto.
  - assert (Hlen : length (pre ++ [y]) = S (length pre))
      by (rewrite length_app; simpl; lia).
    replace (pre ++ y :: l) with ((pre ++ [y]) ++ l) by (rewrite <- app_assoc; done).
    rewrite <- Hlen.
    destruct (w_ltb largest y) eqn:Hlt.
    + apply IH.
      * rewrite lookup_app_r by lia. rewrite Nat.sub_diag. done.
      * intros j x Hj. apply lookup_app_Some in Hj as [Hj | [_ Hj]].
        -- destruct (w_ltb y x) eqn:Hyx; [|done].
           specialize (Hmax j x Hj).
           rewrite (ltb_trans Hord _ _ _ Hlt Hyx) in Hmax. done.
        -- apply list_lookup_singleton_Some in Hj as [_ <-]. apply (ltb_irrefl Hord).
      * intros j x Hj Hx. rewrite lookup_app_l in Hx by lia.
        destruct (ltb_cotrans Hord _ _ x Hlt) as [Hbad | Hgood]; [|done].
        rewrite (Hmax j x Hx) in Hbad. done.
    + apply IH.
      * rewrite lookup_app_l; [done | by eapply lookup_lt_Some].
      * intros j x Hj. apply lookup_app_Some in Hj as [Hj | [_ Hj]]; [by eapply Hmax |].
        apply list_lookup_singleton_Some in Hj as [_ <-]. done.
      * intros j x Hj Hx. apply (Hfirst j x Hj).
        rewrite lookup_app_l in Hx; [done |].
        apply lookup_lt_Some in Hat. lia.
Qed.

Lemma max_element_spec (v : vec) :
  v <> [] ->
  exists m, v !! max_element v = Some m
    /\ (forall j x, v !! j = Some x -> w_ltb m x = false)
    /\ (forall j x, j < max_element v -> v !! j = Some x -> w_ltb x m = true).
Proof.
  destruct v as [|x v]; [done | intros _].
  apply (max_element_scan_spec v [x] 0 x); [done | | intros; lia].
  intros j y Hj. apply list_lookup_singleton_Some in Hj as [_ <-]. apply (ltb_irrefl Hord).
Qed.

End MaxElement.

(** C7.  [predict(sample)] is [predict_label] of
    [activation_probabilities(sample)], and on a non-empty activation vector
    that index holds a maximal entry (no entry compares greater) which is the
    first such: every entry before it is strictly smaller. *)
Theorem predict_first_argmax `{svm_lib} (d : dbn) (item : sample) :
  strict_weak_order ->
  predict d item = max_element (activation_probabilities d item)
  /\ (activation_probabilities d item <> [] ->
      exists m, activation_probabilities d item !! predict d item = Some m
        /\ (forall j x, activation_probabilities d item !! j = Some x -> w_ltb m x = false)
        /\ (forall j x, j < predict d item ->
              activation_probabilities d item !! j = Some x -> w_ltb x m = true)).
Proof.
  intros Hord. split; [done |].
  intros Hne. unfold predict, predict_label. by apply max_element_spec.
Qed.

(** ** The outcome monad and buffer writes *)

Lemma write_at_app {A} (pre post : list A) (x y : A) :
  write_at (length pre) x (pre ++ y :: post) = Ok (pre ++ x :: post).
Proof.
  unfold write_at. rewrite decide_True by (rewrite length_app; simpl; lia).
  f_equal. replace (length pre) with (length pre + 0) at 1 by lia.
  by rewrite insert_app_r.
Qed.

Lemma write_at_length {A} (i : nat) (x : A) (buf buf' : list A) :
  write_at i x buf = Ok buf' -> length buf' = length buf.
Proof.
  unfold write_at. case_decide; [|done]. intros [= <-]. apply length_insert.
Qed.

(** ** Sizes in [std::size_t] *)

Lemma to_size_t_fits `{Domain} (n : nat) : fits_size_t n -> to_size_t n = N.of_nat n.
Proof. unfold fits_size_t, to_size_t. intros Hn. apply N.mod_small. lia. Qed.

(** Sizes that fit leave the room check without wrap-around: it compares
    the integers. *)
Lemma room_for_labels_fits `{Domain} (t2 t1 : rbm_type) (labels : nat) :
  fits_size_t (input_size t1) ->
  fits_size_t (output_size t2 + labels) ->
  room_for_labels t2 t1 labels = bool_decide (input_size t1 = output_size t2 + labels).
Proof.
  intros Hin Hsum. unfold room_for_labels. rewrite !to_size_t_fits by done.
  apply bool_decide_ext. lia.
Qed.

Lemma room_for_labels_true `{Domain} (t2 t1 : rbm_type) (labels : nat) :
  input_size t1 = output_size t2 + labels -> room_for_labels t2 t1 labels = true.
Proof. intros Hroom. unfold room_for_labels. apply bool_decide_eq_true_2. by rewrite Hroom. Qed.


(** ** The allocators' buffers *)

Lemma prepare_output_length `{Domain} (t : rbm_type) (n : nat) (is_last : bool) (labels : nat) :
  length (prepare_output t n is_last labels) = n.
Proof. unfold prepare_output. by rewrite length_replicate. Qed.

(** The enlarged buffer: the slots of the activation, then those of the
    labels. *)
Lemma prepare_one_output_split `{Domain} (t : rbm_type) (labels : nat) :
  exists mid tl,
    prepare_one_output t true labels = mid ++ tl
    /\ length mid = output_size t /\ length tl = labels.
Proof.
  exists (fresh_slot t <$> seq 0 (output_size t)),
         (fresh_slot t <$> seq (output_size t) labels).
  unfold prepare_one_output. rewrite seq_app, fmap_app.
  by rewrite !length_fmap, !length_seq.
Qed.

(** ** The concatenated activations *)

Lemma append_at_app `{Domain} (next_a pre mid post : vec) :
  length mid = length next_a ->
  append_at next_a (length pre) (pre ++ mid ++ post)
  = Ok (length pre + length next_a, pre ++ next_a ++ post).
Proof.
  revert pre mid. induction next_a as [|v next_a IH]; intros pre mid Hlen.
  - destruct mid; [|done]. simpl. by rewrite Nat.add_0_r.
  - destruct mid as [|m mid]; [done|]. simpl in *.
    rewrite write_at_app. simpl.
    replace (pre ++ v :: mid ++ post) with ((pre ++ [v]) ++ mid ++ post)
      by (by rewrite <- app_assoc).
    replace (S (length pre)) with (length (pre ++ [v])) by (rewrite length_app; simpl; lia).
    rewrite IH by lia. rewrite length_app, <- app_assoc. simpl. do 2 f_equal. lia.
Qed.

Lemma activation_chain_widths `{Domain} (ls : list layer_t) (input : vec) :
  Forall (fun l => fills_output l.1) ls ->
  Forall2 (fun l seg => length seg = output_size l.1) ls (activation_chain ls input).
Proof.
  intros Hls. revert input. induction Hls as [|l ls Hl _ IH]; intros input; simpl.
  - constructor.
  - constructor; [apply Hl | apply IH].
Qed.

Lemma foldl_output_size `{Domain} (ls : list layer_t) (n : nat) :
  foldl (fun output l => output + output_size l.1) n ls
  = n + sum_list (map (fun l => output_size l.1) ls).
Proof.
  revert n. induction ls as [|l ls IH]; intros n; simpl; [lia|]. rewrite IH. lia.
Qed.

Lemma activation_chain_total `{Domain} (ls : list layer_t) (input : vec) :
  Forall (fun l => fills_output l.1) ls ->
  length (concat (activation_chain ls input)) = sum_list (map (fun l => output_size l.1) ls).
Proof.
  intros Hls. revert input. induction Hls as [|l ls Hl _ IH]; intros input; simpl; [done|].
  rewrite length_app, IH, Hl. done.
Qed.

Lemma full_activation_probabilities_rec_app `{Domain} (ls : list layer_t) (input : vec)
    (pre mid post : vec) :
  Forall (fun l => fills_output l.1 /\ one_s_agrees l.1) ls ->
  length mid = length (concat (activation_chain ls input)) ->
  full_activation_probabilities_rec ls input (length pre) (pre ++ mid ++ post)
  = Ok (length pre + length mid, pre ++ concat (activation_chain ls input) ++ post).
Proof.
  intros Hls. revert input pre mid.
  induction Hls as [|l ls [_ Hs] _ IH]; intros input pre mid Hlen; simpl in *.
  - destruct mid; [|done]. simpl. by rewrite Nat.add_0_r.
  - specialize (Hs l.2 input). destruct (activate_one_s l.1 l.2 input) as [next_a next_s].
    simpl in Hs. subst next_a. rewrite length_app in Hlen.
    set (a := activate_one l.1 l.2 input) in *.
    rewrite <- (take_drop (length a) mid), <- app_assoc.
    rewrite append_at_app by (rewrite length_take; lia). simpl.
    rewrite (app_assoc pre a).
    replace (length pre + length a) with (length (pre ++ a)) by (by rewrite length_app).
    rewrite IH by (rewrite length_drop; lia).
    rewrite take_drop, length_app, length_drop, <- !app_assoc.
    do 2 f_equal. lia.
Qed.

Lemma activation_probabilities_rec_last `{Domain} (ls : list layer_t) (input result : vec) :
  ls <> [] ->
  last (activation_chain ls input) = Some (activation_probabilities_rec ls input result).
Proof.
  revert input. induction ls as [|l ls IH]; intros input Hne; [done|].
  destruct ls as [|l' ls]; [done|].
  change (activation_chain (l :: l' :: ls) input)
    with (activate_one l.1 l.2 input :: activation_chain (l' :: ls) (activate_one l.1 l.2 input)).
  change (activation_probabilities_rec (l :: l' :: ls) input result)
    with (activation_probabilities_rec (l' :: ls) (activate_one l.1 l.2 input) result).
  rewrite <- (IH (activate_one l.1 l.2 input)) by done. done.
Qed.

Lemma full_activation_probabilities_chain `{svm_lib} (d : dbn) (item : sample) :
  Forall (fun l => fills_output l.1 /\ one_s_agrees l.1) (tuples d) ->
  full_activation_probabilities d item
  = Ok (concat (activation_chain (tuples d) (converted_sample d item))).
Proof.
  intros Hls.
  assert (Htotal : length (concat (activation_chain (tuples d) (converted_sample d item)))
                   = full_output_size d).
  { unfold full_output_size. rewrite foldl_output_size. apply activation_chain_total.
    eapply Forall_impl; [exact Hls | by intros l [? _]]. }
  unfold full_activation_probabilities, converted_sample in *.
  destruct (tuples d) as [|l0 ls] eqn:Hd; [done|].
  pose proof (full_activation_probabilities_rec_app (l0 :: ls) (convert_sample l0.1 l0.2 item)
                [] (replicate (full_output_size d) w_zero) [] Hls) as Hrec.
  rewrite app_nil_r in Hrec. cbn [app length] in Hrec.
  rewrite Hrec by (by rewrite length_replicate, Htotal).
  cbn. by rewrite app_nil_r.
Qed.

(** C8.  For layers whose two [activate_one] overloads agree and fill
    [output_size] slots, [full_activation_probabilities(sample)] returns the
    outputs of all layers along the forward chain, layer 0 first, in one
    vector of width [full_output_size()]; the segment of each layer has that
    layer's output width, and the last segment is
    [activation_probabilities(sample)]. *)
Theorem full_activation_probabilities_concat `{svm_lib} (d : dbn) (item : sample) :
  Forall (fun l => fills_output l.1 /\ one_s_agrees l.1) (tuples d) ->
  full_activation_probabilities d item
    = Ok (concat (activation_chain (tuples d) (converted_sample d item)))
  /\ length (concat (activation_chain (tuples d) (converted_sample d item))) = full_output_size d
  /\ Forall2 (fun l seg => length seg = output_size l.1)
       (tuples d) (activation_chain (tuples d) (converted_sample d item))
  /\ (tuples d <> [] ->
      last (activation_chain (tuples d) (converted_sample d item))
      = Some (activation_probabilities d item)).
Proof.
  intros Hls.
  assert (Hfill : Forall (fun l => fills_output l.1) (tuples d))
    by (eapply Forall_impl; [exact Hls | by intros l [? _]]).
  assert (Htotal : length (concat (activation_chain (tuples d) (converted_sample d item)))
                   = full_output_size d).
  { unfold full_output_size. rewrite foldl_output_size. by apply activation_chain_total. }
  split; [by apply full_activation_probabilities_chain|].
  split; [done | split; [by apply activation_chain_widths|]].
  intros Hne. unfold activation_probabilities, converted_sample.
  destruct (tuples d) as [|l0 ls] eqn:Hd; [done|].
  destruct (last (l0 :: ls)) as [ln|] eqn:Hlast.
  - by apply activation_probabilities_rec_last.
  - by apply last_None in Hlast.
Qed.

(** ** Prediction with labels *)

Lemma copy_from_app {A} (next_a pre mid post : list A) :
  length mid = length next_a ->
  copy_from (length pre) next_a (pre ++ mid ++ post) = Ok (pre ++ next_a ++ post).
Proof.
  revert pre mid. induction next_a as [|v next_a IH]; intros pre mid Hlen.
  - by destruct mid.
  - destruct mid as [|m mid]; [done|]. simpl in *.
    rewrite write_at_app. simpl.
    replace (pre ++ v :: mid ++ post) with ((pre ++ [v]) ++ mid ++ post)
      by (by rewrite <- app_assoc).
    replace (S (length pre)) with (length (pre ++ [v])) by (rewrite length_app; simpl; lia).
    rewrite IH by lia. by rewrite <- app_assoc.
Qed.

Lemma predict_big_next_a_app `{Domain} (t : rbm_type) (next_a : vec) (labels : nat) :
  length next_a = output_size t ->
  predict_big_next_a t next_a labels = Ok (next_a ++ replicate labels w_tenth).
Proof.
  intros Hlen. unfold predict_big_next_a.
  destruct (prepare_one_output_split t labels) as (mid & tl & -> & Hmid & Htl).
  pose proof (copy_from_app next_a [] mid tl) as Hcopy.
  cbn [app length] in Hcopy. rewrite Hcopy by lia.
  cbn. unfold fill_from.
  rewrite decide_True by (rewrite length_app; lia).
  rewrite take_app_length' by done.
  by rewrite length_app, Htl, <- Hlen, Nat.add_sub'.
Qed.

Lemma activation_probabilities_rec_result `{Domain} (ls : list layer_t) (input r r' : vec) :
  ls <> [] -> activation_probabilities_rec ls input r = activation_probabilities_rec ls input r'.
Proof.
  revert input. induction ls as [|l ls IH]; intros input Hne; [done|].
  destruct ls as [|l' ls]; [done|]. by apply (IH (activate_one l.1 l.2 input)).
Qed.

Lemma activation_probabilities_rec_snoc `{Domain} (ls : list layer_t) (l : layer_t)
    (input r : vec) :
  activation_probabilities_rec (ls ++ [l]) input r
  = activate_one l.1 l.2 (activation_probabilities_rec ls input input).
Proof.
  revert input. induction ls as [|l' ls IH]; intros input; [done|].
  destruct ls as [|l'' ls].
  - done.
  - change (activation_probabilities_rec ((l' :: l'' :: ls) ++ [l]) input r)
      with (activation_probabilities_rec ((l'' :: ls) ++ [l]) (activate_one l'.1 l'.2 input) r).
    rewrite IH.
    change (activation_probabilities_rec (l' :: l'' :: ls) input input)
      with (activation_probabilities_rec (l'' :: ls) (activate_one l'.1 l'.2 input) input).
    f_equal. by apply activation_probabilities_rec_result.
Qed.

(** Below the second-to-last layer [predict_labels<I>] walks the forward
    chain. *)
Lemma predict_labels_rec_front `{Domain} (front : list layer_t) (l2 l1 : layer_t)
    (input output : vec) (labels : nat) :
  Forall (fun l => hidden_agrees l.1) front ->
  predict_labels_rec (front ++ [l2; l1]) input output labels
  = predict_labels_rec [l2; l1] (activation_probabilities_rec front input input) output labels.
Proof.
  intros Hfront. revert input.
  induction Hfront as [|l front Hl _ IH]; intros input; [done|].
  change (predict_labels_rec ((l :: front) ++ [l2; l1]) input output labels)
    with (let '(next_a, next_s) := activate_hidden l.1 l.2 input input in
          match front ++ [l2; l1] with
          | [] => let '(output_a, output_s) := activate_visible l.1 l.2 next_a next_s in
                  Ok output_a
          | [_] => big_next_a ← predict_big_next_a l.1 next_a labels;
                   predict_labels_rec (front ++ [l2; l1]) big_next_a output labels
          | _ :: _ :: _ => predict_labels_rec (front ++ [l2; l1]) next_a output labels
          end).
  specialize (Hl l.2 input). destruct (activate_hidden l.1 l.2 input input) as [next_a next_s].
  simpl in Hl. subst next_a.
  assert (Hshape : exists a b rest, front ++ [l2; l1] = a :: b :: rest).
  { destruct front as [|a [|b front]]; simpl; eauto. }
  destruct Hshape as (a & b & rest & Hshape). rewrite Hshape, <- Hshape, IH.
  f_equal. destruct front as [|l' front]; [done|].
  change (activation_probabilities_rec (l :: l' :: front) input input)
    with (activation_probabilities_rec (l' :: front) (activate_one l.1 l.2 input) input).
  by apply activation_probabilities_rec_result.
Qed.

Lemma predict_labels_rec_last_two `{Domain} (l2 l1 : layer_t) (input output : vec)
    (labels : nat) :
  length (activate_hidden l2.1 l2.2 input input).1 = output_size l2.1 ->
  predict_labels_rec [l2; l1] input output labels
  = Ok (reconstruct l1 ((activate_hidden l2.1 l2.2 input input).1 ++ replicate labels w_tenth)).
Proof.
  intros Hlen. unfold reconstruct. simpl.
  destruct (activate_hidden l2.1 l2.2 input input) as [next_a next_s]. simpl in *.
  rewrite predict_big_next_a_app by done. cbn.
  destruct (activate_hidden l1.1 l1.2 _ _) as [h_a h_s]. simpl.
  by destruct (activate_visible l1.1 l1.2 h_a h_s).
Qed.

(** C10.  At the second-to-last layer [predict_labels] hands the last layer
    an input whose first [output_size] entries are that layer's hidden
    activation and whose trailing [labels] entries are all 0.1, and the last
    layer is queried with exactly this input. *)
Theorem predict_labels_pads_with_tenth `{Domain} (l2 l1 : layer_t) (input output : vec)
    (labels : nat) :
  length (activate_hidden l2.1 l2.2 input input).1 = output_size l2.1 ->
  predict_big_next_a l2.1 (activate_hidden l2.1 l2.2 input input).1 labels
    = Ok ((activate_hidden l2.1 l2.2 input input).1 ++ replicate labels w_tenth)
  /\ predict_labels_rec [l2; l1] input output labels
     = Ok (reconstruct l1
             ((activate_hidden l2.1 l2.2 input input).1 ++ replicate labels w_tenth)).
Proof.
  intros Hlen. split.
  - by apply predict_big_next_a_app.
  - by apply predict_labels_rec_last_two.
Qed.

Lemma last_two_app {A} (front : list A) (y z : A) : last_two (front ++ [y; z]) = Some (y, z).
Proof. unfold last_two. by rewrite reverse_app. Qed.

Lemma last_two_Some {A} (l : list A) (y z : A) :
  last_two l = Some (y, z) -> exists front, l = front ++ [y; z].
Proof.
  unfold last_two. intros Hl. rewrite <- (reverse_involutive l).
  destruct (reverse l) as [|z' [|y' rest]]; simplify_eq.
  exists (reverse rest). by rewrite !reverse_cons, <- app_assoc.
Qed.


(** ** Training with labels: the enlarged buffer *)

Lemma insert_middle {A} (pre post : list A) (x y : A) :
  <[length pre := x]> (pre ++ y :: post) = pre ++ x :: post.
Proof.
  replace (length pre) with (length pre + 0) at 1 by lia. by rewrite insert_app_r.
Qed.

Lemma write_at2_middle {A} (pre post : list (list A)) (rp rq : list A) (x y : A) :
  write_at2 (length pre) (length rp) x (pre ++ (rp ++ y :: rq) :: post)
  = Ok (pre ++ (rp ++ x :: rq) :: post).
Proof.
  unfold write_at2. rewrite list_lookup_middle by done.
  rewrite write_at_app. cbn. by rewrite insert_middle.
Qed.

Lemma copy_row_middle {A} (row : list A) (pre post : list (list A)) (rp mid rq : list A) :
  length mid = length row ->
  copy_row (length pre) (length rp) row (pre ++ (rp ++ mid ++ rq) :: post)
  = Ok (pre ++ (rp ++ row ++ rq) :: post).
Proof.
  revert rp mid. induction row as [|x row IH]; intros rp mid Hlen.
  - by destruct mid.
  - destruct mid as [|m mid]; [done|]. simpl in *.
    rewrite write_at2_middle. cbn.
    replace (rp ++ x :: mid ++ rq) with ((rp ++ [x]) ++ mid ++ rq) by (by rewrite <- app_assoc).
    replace (S (length rp)) with (length (rp ++ [x])) by (rewrite length_app; simpl; lia).
    rewrite IH by lia. by rewrite <- app_assoc.
Qed.

Lemma copy_rows_middle {A} (next_a : list (list A)) (pre post : list (list A))
    (mid tl : list A) :
  Forall (fun a => length a = length mid) next_a ->
  copy_rows (length pre) next_a
    (pre ++ replicate (length next_a) (mid ++ tl) ++ post)
  = Ok (pre ++ map (fun a => a ++ tl) next_a ++ post).
Proof.
  intros Hrows. revert pre. induction Hrows as [|a next_a Ha _ IH]; intros pre; [done|].
  simpl.
  pose proof (copy_row_middle a pre (replicate (length next_a) (mid ++ tl) ++ post)
                [] mid tl) as Hrow.
  cbn [app length] in Hrow. rewrite Hrow by done. cbn.
  replace (pre ++ (a ++ tl) :: replicate (length next_a) (mid ++ tl) ++ post)
    with ((pre ++ [a ++ tl]) ++ replicate (length next_a) (mid ++ tl) ++ post)
    by (by rewrite <- app_assoc).
  replace (S (length pre)) with (length (pre ++ [a ++ tl]))
    by (rewrite length_app; simpl; lia).
  rewrite IH. by rewrite <- app_assoc.
Qed.

Lemma write_label_middle `{Domain} (label : nat) (pre post : list vec) (a : vec) (n : nat) :
  forall (k : nat) (written mid : vec),
  length written = k -> length mid = n ->
  write_label (length pre) (length a) label (seq k n) (pre ++ (a ++ written ++ mid) :: post)
  = Ok (pre ++ (a ++ written
                  ++ map (fun l => if decide (label = l) then w_one else w_zero) (seq k n))
            :: post).
Proof.
  induction n as [|n IH]; intros k written mid Hk Hn.
  - by destruct mid.
  - destruct mid as [|m mid]; [done|]. simpl in *.
    rewrite (app_assoc a written (m :: mid)).
    replace (length a + k) with (length (a ++ written)) by (rewrite length_app; lia).
    rewrite write_at2_middle. cbn.
    set (x := if decide (label = k) then w_one else w_zero).
    replace ((a ++ written) ++ x :: mid) with (a ++ (written ++ [x]) ++ mid)
      by (by rewrite <- !app_assoc).
    rewrite IH by (rewrite ?length_app; simpl; lia).
    by rewrite <- !app_assoc.
Qed.

Lemma one_hot_map `{Domain} (labels label : nat) :
  map (fun l => if decide (label = l) then w_one else w_zero) (seq 0 labels)
  = one_hot labels label.
Proof.
  unfold one_hot. apply map_ext. intros l.
  destruct (decide (label = l)), (decide (l = label)); done || congruence.
Qed.

Lemma write_labels_middle `{Domain} (out labels : nat) (lit : list nat) (tl : vec) :
  length tl = labels ->
  forall (acts pre post : list vec),
  length acts = length lit ->
  Forall (fun a => length a = out) acts ->
  write_labels (length pre) out labels lit
    (pre ++ map (fun a => a ++ tl) acts ++ post)
  = Ok (pre ++ zip_with (fun a label => a ++ one_hot labels label) acts lit ++ post).
Proof.
  intros Htl.
  induction lit as [|label lit IH]; intros acts pre post Hlen Hout.
  - by destruct acts.
  - destruct acts as [|a acts]; [done|]. simpl in *.
    apply Forall_cons in Hout as [Ha Hout]. subst out.
    pose proof (write_label_middle label pre
                  (map (fun a => a ++ tl) acts ++ post) a labels
                  0 [] tl) as Hrow.
    cbn [app] in Hrow. rewrite Hrow by done. cbn.
    rewrite one_hot_map.
    replace (pre ++ (a ++ one_hot labels label)
                 :: map (fun a => a ++ tl) acts ++ post)
      with ((pre ++ [a ++ one_hot labels label])
              ++ map (fun a => a ++ tl) acts ++ post)
      by (by rewrite <- app_assoc).
    replace (S (length pre)) with (length (pre ++ [a ++ one_hot labels label]))
      by (rewrite length_app; simpl; lia).
    rewrite IH by (done || lia). by rewrite <- app_assoc.
Qed.

Lemma train_big_next_a_spec `{Domain} (t : rbm_type) (acts : list vec) (lit : list nat)
    (labels : nat) :
  length lit = length acts ->
  Forall (fun a => length a = output_size t) acts ->
  train_big_next_a t (length acts) acts lit labels
  = Ok (zip_with (fun a label => a ++ one_hot labels label) acts lit).
Proof.
  intros Hlen Hout. unfold train_big_next_a, prepare_output.
  destruct (prepare_one_output_split t labels) as (mid & tl & -> & Hmid & Htl).
  rewrite <- Hmid in Hout.
  pose proof (copy_rows_middle acts [] [] mid tl Hout) as Hcopy.
  cbn [app length] in Hcopy. rewrite !app_nil_r in Hcopy. rewrite Hcopy. cbn.
  rewrite Hmid in Hout.
  pose proof (write_labels_middle (output_size t) labels lit tl Htl acts [] []) as Hlab.
  cbn [app length] in Hlab. rewrite !app_nil_r in Hlab. by apply Hlab.
Qed.

Lemma one_hot_length `{Domain} (labels label : nat) : length (one_hot labels label) = labels.
Proof. unfold one_hot. by rewrite length_map, length_seq. Qed.

(** C3.  When [train_with_labels<I>] runs on the second-to-last layer [l2]
    with one label per input sample, the buffer it builds, and on which it
    trains the last layer [l1], holds for every sample the activation of the
    freshly trained [l2] followed by the one-hot encoding of the sample's
    label; every row is [output_size + labels] wide. *)
Theorem train_with_labels_augments `{Domain} (I : nat) (l2 l1 : layer_t) (input : list vec)
    (lit : list nat) (labels max_epochs : nat) :
  length lit = length input ->
  fills_output l2.1 ->
  many_agrees l2.1 ->
  train_big_next_a l2.1 (length input)
      (activate_many l2.1 (train l2.1 l2.2 input max_epochs) input).1 lit labels
    = Ok (augmented l2.1 (train l2.1 l2.2 input max_epochs) input lit labels)
  /\ (forall i v label, input !! i = Some v -> lit !! i = Some label ->
      exists row,
        augmented l2.1 (train l2.1 l2.2 input max_epochs) input lit labels !! i = Some row
        /\ length row = output_size l2.1 + labels
        /\ take (output_size l2.1) row = activate_one l2.1 (train l2.1 l2.2 input max_epochs) v
        /\ forall j, j < labels ->
             row !! (output_size l2.1 + j) = Some (if decide (j = label) then w_one else w_zero))
  /\ train_with_labels_rec I [l2; l1] input lit labels max_epochs
     = Ok ([(l2.1, train l2.1 l2.2 input max_epochs);
            (l1.1, train l1.1 l1.2
                     (augmented l2.1 (train l2.1 l2.2 input max_epochs) input lit labels)
                     max_epochs)],
           [pretrain_layer_event I (length input);
            train_event I input max_epochs;
            pretrain_layer_event (S I) (length input);
            train_event (S I)
              (augmented l2.1 (train l2.1 l2.2 input max_epochs) input lit labels)
              max_epochs]).
Proof.
  intros Hlen Hfill Hmany.
  set (w := train l2.1 l2.2 input max_epochs).
  assert (Hbig : train_big_next_a l2.1 (length input) (activate_many l2.1 w input).1 lit labels
                 = Ok (augmented l2.1 w input lit labels)).
  { rewrite Hmany. unfold augmented.
    rewrite <- (length_map (activate_one l2.1 w) input) at 1.
    apply train_big_next_a_spec; [by rewrite length_map|].
    apply Forall_map, Forall_forall. intros v _. apply Hfill. }
  assert (Hcount : length (augmented l2.1 w input lit labels) = length input).
  { unfold augmented. rewrite length_zip_with, length_map. lia. }
  split; [done | split].
  - intros i v label Hv Hlabel. exists (activate_one l2.1 w v ++ one_hot labels label).
    pose proof (Hfill w v) as Hwidth.
    split; [|split; [|split]].
    + unfold augmented. apply lookup_zip_with_Some.
      exists (activate_one l2.1 w v), label. by rewrite list_lookup_fmap, Hv.
    + by rewrite length_app, one_hot_length, Hwidth.
    + by rewrite take_app_length'.
    + intros j Hj. rewrite lookup_app_r by lia.
      replace (output_size l2.1 + j - length (activate_one l2.1 w v)) with j by lia.
      unfold one_hot. rewrite list_lookup_fmap, lookup_seq_lt by done. done.
  - simpl. fold w.
    destruct (activate_many l2.1 w input) as [next_a next_s] eqn:Hact. simpl in Hbig.
    rewrite Hbig. cbn. by rewrite Hcount.
Qed.

(** ** Training with labels: the preconditions *)

Lemma asserts_nothing_bind {A B} (m : outcome A) (f : A -> outcome B) :
  asserts_nothing m -> (forall a, asserts_nothing (f a)) -> asserts_nothing (m ≫= f).
Proof.
  intros Hm Hf msg. destruct m as [a| msg' | | |]; cbn; try done.
  - apply Hf.
  - by destruct (Hm msg').
Qed.








(** ** Persistence *)

Lemma store_layers_blocks `{Domain} (ls : list layer_t) (os : list Byte.byte) :
  foldl (fun os layer => store_layer layer os) os ls = os ++ concat (map layer_block ls).
Proof.
  revert os. induction ls as [|l ls IH]; intros os; simpl.
  - by rewrite app_nil_r.
  - rewrite IH. unfold store_layer, layer_block.
    destruct (is_pooling_layer l.1); [done | by rewrite <- app_assoc].
Qed.

Lemma load_layers_blocks `{Domain} (stored : list layer_t) :
  forall (target : list layer_t) (rest : list Byte.byte),
  map fst stored = map fst target ->
  Forall (fun l => is_pooling_layer l.1 = false -> loads_what_it_stores l.1) stored ->
  load_layers target (concat (map layer_block stored) ++ rest) = (restored stored target, rest).
Proof.
  induction stored as [|l stored IH]; intros target rest Hshape Hrt.
  - by destruct target.
  - destruct target as [|l' target]; [done|].
    simpl in Hshape. injection Hshape as Hty Hshape.
    apply Forall_cons in Hrt as [Hl Hrt].
    destruct l as [t w], l' as [t' w']. simpl in *. subst t'.
    unfold load_layer, layer_block, restored. simpl.
    destruct (is_pooling_layer t) eqn:Hpool.
    + simpl. rewrite IH by done. done.
    + rewrite <- app_assoc, (Hl eq_refl). rewrite IH by done. done.
Qed.

Lemma activation_probabilities_rec_same `{Domain} (ls ls' : list layer_t) (input result : vec) :
  Forall2 same_activation ls ls' ->
  activation_probabilities_rec ls input result = activation_probabilities_rec ls' input result.
Proof.
  intros Hsame. revert input.
  induction Hsame as [|l l' ls ls' (_ & Hact & _) Hrest IH]; intros input; [done|].
  simpl. rewrite Hact. destruct Hrest; [done | apply IH].
Qed.

Lemma restored_same `{Domain} (stored : list layer_t) :
  forall target : list layer_t,
  map fst stored = map fst target ->
  Forall (fun l => is_pooling_layer l.1 = true -> parameter_free l.1) stored ->
  Forall2 same_activation (restored stored target) stored.
Proof.
  induction stored as [|l stored IH]; intros target Hshape Hfree.
  - destruct target; constructor.
  - destruct target as [|l' target]; [done|].
    simpl in Hshape. injection Hshape as Hty Hshape.
    apply Forall_cons in Hfree as [Hl Hfree].
    unfold restored. simpl. constructor; [|by apply IH].
    destruct l as [t w], l' as [t' w']. simpl in *. subst t'.
    destruct (is_pooling_layer t) eqn:Hpool; [|done].
    destruct (Hl eq_refl w' w) as [Hact Hconv]. done.
Qed.

Lemma activation_probabilities_same `{svm_lib} (d1 d2 : dbn) (item : sample) :
  Forall2 same_activation (tuples d1) (tuples d2) ->
  activation_probabilities d1 item = activation_probabilities d2 item.
Proof.
  unfold activation_probabilities. intros Hsame.
  destruct Hsame as [|l l' ls ls' Hl Hrest]; [done|].
  assert (Hne : l :: ls <> []) by done. assert (Hne' : l' :: ls' <> []) by done.
  destruct (last (l :: ls)) as [ln|] eqn:Hlast; [|by apply last_None in Hlast].
  destruct (last (l' :: ls')) as [ln'|] eqn:Hlast'; [|by apply last_None in Hlast'].
  destruct Hl as (Hty & Hact & Hconv). rewrite Hconv.
  rewrite (activation_probabilities_rec_same (l :: ls) (l' :: ls'))
    by (constructor; done).
  by apply activation_probabilities_rec_result.
Qed.

(** C6.  [store] appends to the stream the block of every layer in stack
    order, nothing for a pooling layer, and then the classifier's block;
    [load] reads the layers' blocks in that order and leaves the pooling
    layers alone.  When every loaded layer reads back what it wrote and the
    pooling layers have no parameters, loading what [d] stored into a
    network [d'] of the same layer types gives [activation_probabilities]
    the values it has on [d]. *)
Theorem store_load_roundtrip `{svm_lib} (cfg : dbn_traits) (d d' : dbn)
    (os rest : list Byte.byte) :
  map fst (tuples d) = map fst (tuples d') ->
  Forall (fun l => if is_pooling_layer l.1 then parameter_free l.1
                   else loads_what_it_stores l.1) (tuples d) ->
  store cfg d os
    = os ++ concat (map layer_block (tuples d))
         ++ (if DLL_SVM_SUPPORT cfg then svm_store (svm_model d) (svm_loaded d) else [])
  /\ load_layers (tuples d') (concat (map layer_block (tuples d)) ++ rest)
     = (restored (tuples d) (tuples d'), rest)
  /\ tuples (load cfg d' (store cfg d [] ++ rest)).1 = restored (tuples d) (tuples d')
  /\ forall item,
       activation_probabilities (load cfg d' (store cfg d [] ++ rest)).1 item
       = activation_probabilities d item.
Proof.
  intros Hshape Hls.
  assert (Hrt : Forall (fun l => is_pooling_layer l.1 = false -> loads_what_it_stores l.1)
                  (tuples d)).
  { eapply Forall_impl; [exact Hls|]. intros l Hl Hp. simpl in *.
    by destruct (is_pooling_layer l.1). }
  assert (Hfree : Forall (fun l => is_pooling_layer l.1 = true -> parameter_free l.1)
                    (tuples d)).
  { eapply Forall_impl; [exact Hls|]. intros l Hl Hp. simpl in *.
    by destruct (is_pooling_layer l.1). }
  assert (Hstore : forall os, store cfg d os
            = os ++ concat (map layer_block (tuples d))
                 ++ (if DLL_SVM_SUPPORT cfg then svm_store (svm_model d) (svm_loaded d) else [])).
  { intros os'. unfold store. rewrite store_layers_blocks.
    destruct (DLL_SVM_SUPPORT cfg); [by rewrite <- app_assoc | by rewrite app_nil_r]. }
  assert (Hload : tuples (load cfg d' (store cfg d [] ++ rest)).1
                  = restored (tuples d) (tuples d')).
  { unfold load. rewrite Hstore. cbn [app]. rewrite <- app_assoc.
    rewrite load_layers_blocks by done.
    destruct (DLL_SVM_SUPPORT cfg); [|done].
    by destruct (svm_load _ _ _) as [[model loaded] ins]. }
  split; [apply Hstore | split; [by apply load_layers_blocks | split; [done|]]].
  intros item.
  pose proof (restored_same (tuples d) (tuples d') Hshape Hfree) as Hsame.
  apply activation_probabilities_same. by rewrite Hload.
Qed.

(** ** The SVM bridge *)

Lemma add_activation_probabilities_features `{svm_lib} (cfg : dbn_traits) (d : dbn)
    (result : list vec) (item : sample) :
  tuples d <> [] ->
  Forall (fun l => fills_output l.1 /\ one_s_agrees l.1) (tuples d) ->
  add_activation_probabilities cfg d result item = Ok (result ++ [features cfg d item]).
Proof.
  intros Hne Hls. unfold add_activation_probabilities, features.
  destruct (concatenate cfg).
  - pose proof (full_activation_probabilities_chain d item Hls) as Hfull.
    unfold full_activation_probabilities in Hfull.
    unfold full_activation_probabilities_into.
    destruct (tuples d) as [|l0 ls]; [done|]. by rewrite Hfull.
  - unfold activation_probabilities, activation_probabilities_into.
    destruct (tuples d) as [|l0 ls] eqn:Hd; [done|].
    destruct (last (l0 :: ls)) as [ln|] eqn:Hlast; [done | by apply last_None in Hlast].
Qed.

Lemma collect_samples_features `{svm_lib} (cfg : dbn_traits) (d : dbn)
    (training_data : list sample) (svm_samples : list vec) :
  tuples d <> [] ->
  Forall (fun l => fills_output l.1 /\ one_s_agrees l.1) (tuples d) ->
  collect_samples cfg d svm_samples training_data
  = Ok (svm_samples ++ map (features cfg d) training_data).
Proof.
  intros Hne Hls. revert svm_samples.
  induction training_data as [|item rest IH]; intros svm_samples; simpl.
  - by rewrite app_nil_r.
  - rewrite add_activation_probabilities_features by done. cbn.
    rewrite IH. by rewrite <- app_assoc.
Qed.

(** C9, as the code has it.  [svm_train] and [svm_grid_search] first store
    the problem built from the samples' features in the network; when
    [svm::check] rejects it they return false, and the network then differs
    from the one before the call in [problem] only: the layers, the stored
    model and the model-loaded flag are as they were. *)
Theorem svm_check_failure_keeps_model `{svm_lib} (cfg : dbn_traits) (d : dbn)
    (training_data : list sample) (labels : list nat) (parameters : svm_parameter)
    (n_fold : nat) (g : svm_rbf_grid) :
  tuples d <> [] ->
  Forall (fun l => fills_output l.1 /\ one_s_agrees l.1) (tuples d) ->
  (svm_check (svm_make_problem labels (map (features cfg d) training_data) (scale cfg))
     parameters = false ->
   exists d',
     svm_train cfg d training_data labels parameters = Ok (d', false)
     /\ tuples d' = tuples d /\ svm_model d' = svm_model d /\ svm_loaded d' = svm_loaded d
     /\ problem d' = svm_make_problem labels (map (features cfg d) training_data) (scale cfg))
  /\ (svm_check (svm_make_problem labels (map (features cfg d) training_data) (scale cfg))
        default_svm_parameters = false ->
      exists d',
        svm_grid_search cfg d training_data labels n_fold g = Ok (d', false)
        /\ tuples d' = tuples d /\ svm_model d' = svm_model d /\ svm_loaded d' = svm_loaded d
        /\ problem d' = svm_make_problem labels (map (features cfg d) training_data) (scale cfg)).
Proof.
  intros Hne Hls.
  assert (Hmake : make_problem cfg d training_data labels (scale cfg)
            = Ok (set_problem d (svm_make_problem labels (map (features cfg d) training_data)
                                   (scale cfg)))).
  { unfold make_problem. by rewrite collect_samples_features. }
  split; intros Hcheck;
    exists (set_problem d (svm_make_problem labels (map (features cfg d) training_data)
                             (scale cfg)));
    unfold svm_train, svm_grid_search; rewrite Hmake; cbn; rewrite Hcheck; done.
Qed.

(** ** Pretraining in batch mode *)










(** ** The concrete instance meets what the properties ask of layers *)

Lemma Qltb_lt (x y : Q) : Demo.Qltb x y = true <-> (x < y)%Q.
Proof.
  unfold Demo.Qltb. rewrite negb_true_iff. split.
  - intros Hle. apply Qnot_le_lt. intros Hyx.
    apply Qle_bool_iff in Hyx. congruence.
  - intros Hlt. destruct (Qle_bool y x) eqn:Hle; [|done].
    apply Qle_bool_iff in Hle. by apply Qlt_not_le in Hlt.
Qed.

Lemma demo_strict_weak_order : strict_weak_order (H := Demo.domain).
Proof.
  split; simpl.
  - intros a. destruct (Demo.Qltb a a) eqn:Haa; [|done].
    apply Qltb_lt in Haa. by apply Qlt_irrefl in Haa.
  - intros a b c Hab Hbc. apply Qltb_lt. apply Qltb_lt in Hab, Hbc.
    by apply Qlt_trans with b.
  - intros a b c Hab. apply Qltb_lt in Hab.
    destruct (Qlt_le_dec a c) as [Hac | Hca].
    + left. by apply Qltb_lt.
    + right. apply Qltb_lt. by apply Qle_lt_trans with a.
Qed.

Lemma stub_fills_output (inp out : nat) (pooling last : bool) :
  fills_output (Demo.stub inp out pooling last).
Proof. intros w v. simpl. unfold Demo.act. apply length_resize. Qed.

Lemma stub_one_s_agrees (inp out : nat) (pooling last : bool) :
  one_s_agrees (Demo.stub inp out pooling last).
Proof. by intros w v. Qed.

Lemma stub_hidden_agrees (inp out : nat) (pooling last : bool) :
  hidden_agrees (Demo.stub inp out pooling last).
Proof. by intros w v. Qed.

Lemma stub_many_agrees (inp out : nat) (pooling last : bool) :
  many_agrees (Demo.stub inp out pooling last).
Proof. by intros w vs. Qed.

Lemma stub_converts_each (inp out : nat) (pooling last : bool) :
  converts_each (Demo.stub inp out pooling last).
Proof. by intros w samples. Qed.

Lemma load_store_unary (w : nat) (rest : list Byte.byte) :
  Demo.load_unary (Demo.store_unary w ++ rest) = (w, rest).
Proof.
  unfold Demo.store_unary. induction w as [|w IH]; [done|].
  simpl in *. by rewrite IH.
Qed.

Lemma stub_loads_what_it_stores (inp out : nat) (pooling last : bool) :
  loads_what_it_stores (Demo.stub inp out pooling last).
Proof. intros w w' rest. apply load_store_unary. Qed.

Lemma stub_pooling_parameter_free (inp out : nat) (last : bool) :
  parameter_free (Demo.stub inp out true last).
Proof. by intros w w'. Qed.

Lemma stub_reconstruct_length (inp out : nat) (pooling last : bool) (w : nat) (v : list Q) :
  length (reconstruct (Demo.stub inp out pooling last, w) v) = inp.
Proof. unfold reconstruct. simpl. apply length_resize. Qed.

(** ** The properties at concrete inputs *)

(** C7 on the activation vector [0.1, 0.9, 0.3]: the prediction is 1. *)
Lemma predict_first_argmax_witness :
  activation_probabilities Demo.net3 Demo.s3 = [(1 # 10)%Q; (9 # 10)%Q; (3 # 10)%Q]
  /\ predict Demo.net3 Demo.s3 = 1
  /\ exists m, activation_probabilities Demo.net3 Demo.s3 !! predict Demo.net3 Demo.s3 = Some m
       /\ (forall j x, activation_probabilities Demo.net3 Demo.s3 !! j = Some x ->
             w_ltb m x = false)
       /\ (forall j x, j < predict Demo.net3 Demo.s3 ->
             activation_probabilities Demo.net3 Demo.s3 !! j = Some x -> w_ltb x m = true).
Proof.
  split; [reflexivity|]. split; [reflexivity|].
  apply (predict_first_argmax Demo.net3 Demo.s3 demo_strict_weak_order).
  discriminate.
Defined.

Lemma demo_layers_agree (ls : list (nat * nat * bool * bool * nat)) :
  Forall (fun l => fills_output l.1 /\ one_s_agrees l.1)
    (map (fun '(inp, out, pooling, last, w) => (Demo.stub inp out pooling last, w)) ls).
Proof.
  apply Forall_map, Forall_forall. intros [[[[inp out] pooling] last] w] _.
  split; [apply stub_fills_output | apply stub_one_s_agrees].
Qed.

(** C8 on two layers of three units. *)
Lemma full_activation_probabilities_concat_witness :
  full_activation_probabilities Demo.net3 Demo.s3
    = Ok [(1 # 10)%Q; (9 # 10)%Q; (3 # 10)%Q; (1 # 10)%Q; (9 # 10)%Q; (3 # 10)%Q]
  /\ full_output_size Demo.net3 = 6
  /\ full_activation_probabilities Demo.net3 Demo.s3
     = Ok (concat (activation_chain (tuples Demo.net3) (converted_sample Demo.net3 Demo.s3))).
Proof.
  split; [reflexivity|]. split; [reflexivity|].
  apply (full_activation_probabilities_concat Demo.net3 Demo.s3).
  apply (demo_layers_agree [(3, 3, false, true, 0); (3, 3, false, true, 0)]).
Defined.


(** C10 on the same network: the last layer sees [2, 3, 0.1, 0.1, 0.1]. *)
Lemma predict_labels_pads_with_tenth_witness :
  predict_big_next_a (Demo.stub 2 2 false true) [2%Q; 3%Q] 3
    = Ok [2%Q; 3%Q; (1 # 10)%Q; (1 # 10)%Q; (1 # 10)%Q]
  /\ predict_labels_rec [(Demo.stub 2 2 false true, 1); (Demo.stub 5 5 false true, 2)]
       [1%Q; 2%Q] [] 3
     = Ok (reconstruct (Demo.stub 5 5 false true, 2)
             [2%Q; 3%Q; (1 # 10)%Q; (1 # 10)%Q; (1 # 10)%Q]).
Proof.
  apply (predict_labels_pads_with_tenth (Demo.stub 2 2 false true, 1)
           (Demo.stub 5 5 false true, 2) [1%Q; 2%Q] [] 3).
  reflexivity.
Defined.

(** C3 on two samples with labels 1 and 0 among three classes, and the
    specification's example: label 1 of 3 is encoded as [0, 1, 0]. *)
Lemma train_with_labels_augments_witness :
  one_hot 3 1 = [0%Q; 1%Q; 0%Q]
  /\ train_big_next_a (Demo.stub 2 2 false true) 2
       (activate_many (Demo.stub 2 2 false true)
          (train (Demo.stub 2 2 false true) 1 Demo.data2 1) Demo.data2).1 Demo.labels2 3
     = Ok [[12%Q; 13%Q; 0%Q; 1%Q; 0%Q]; [14%Q; 15%Q; 1%Q; 0%Q; 0%Q]]
  /\ train_big_next_a (Demo.stub 2 2 false true) 2
       (activate_many (Demo.stub 2 2 false true)
          (train (Demo.stub 2 2 false true) 1 Demo.data2 1) Demo.data2).1 Demo.labels2 3
     = Ok (augmented (Demo.stub 2 2 false true)
             (train (Demo.stub 2 2 false true) 1 Demo.data2 1) Demo.data2 Demo.labels2 3).
Proof.
  split; [reflexivity|]. split; [reflexivity|].
  apply (train_with_labels_augments 0 (Demo.stub 2 2 false true, 1)
           (Demo.stub 5 5 false true, 2) Demo.data2 Demo.labels2 3 1).
  - reflexivity.
  - apply stub_fills_output.
  - apply stub_many_agrees.
Defined.



(** C6 on a stack with a pooling layer in the middle: the stored bytes, and
    the activations after loading them into a network with other
    contents. *)
Lemma store_load_roundtrip_witness :
  store (Demo.traits 2 true false) Demo.net_pool []
    = [Byte.x01; Byte.x00; Byte.x01; Byte.x01; Byte.x01; Byte.x00; Byte.x00]
  /\ map snd (tuples (load (Demo.traits 2 true false) Demo.net_pool_fresh
                        (store (Demo.traits 2 true false) Demo.net_pool [] ++ [])).1)
     = [1; 7; 3]
  /\ forall item,
       activation_probabilities
         (load (Demo.traits 2 true false) Demo.net_pool_fresh
            (store (Demo.traits 2 true false) Demo.net_pool [] ++ [])).1 item
       = activation_probabilities Demo.net_pool item.
Proof.
  split; [reflexivity|]. split; [reflexivity|].
  apply (store_load_roundtrip (Demo.traits 2 true false) Demo.net_pool Demo.net_pool_fresh
           [] []).
  - reflexivity.
  - repeat constructor; simpl;
      (apply stub_loads_what_it_stores || apply stub_pooling_parameter_free).
Defined.

(** C9 as stated fails: a call that [check] rejects has replaced the stored
    problem. *)
Lemma svm_check_failure_replaces_problem :
  svm_check (svm_make_problem [1] [Demo.s3] false) false = false
  /\ svm_train (Demo.traits 2 false false) Demo.net3 [Demo.s3] [1] false
     = Ok (set_problem Demo.net3 ([1], [Demo.s3]), false)
  /\ svm_grid_search (Demo.traits 2 false false) Demo.net3 [Demo.s3] [1; 2] 5 tt
     = Ok (set_problem Demo.net3 ([1; 2], [Demo.s3]), false)
  /\ problem (set_problem Demo.net3 ([1], [Demo.s3])) <> problem Demo.net3
  /\ problem (set_problem Demo.net3 ([1; 2], [Demo.s3])) <> problem Demo.net3.
Proof. repeat split; (reflexivity || discriminate). Qed.

(** C9, amended, on the same calls. *)
Lemma svm_check_failure_keeps_model_witness :
  exists d',
    svm_train (Demo.traits 2 false false) Demo.net3 [Demo.s3] [1] false = Ok (d', false)
    /\ tuples d' = tuples Demo.net3 /\ svm_model d' = 0 /\ svm_loaded d' = false
    /\ problem d' = ([1], [Demo.s3]).
Proof.
  apply (svm_check_failure_keeps_model (Demo.traits 2 false false) Demo.net3 [Demo.s3] [1]
           false 5 tt).
  - discriminate.
  - apply (demo_layers_agree [(3, 3, false, true, 0); (3, 3, false, true, 0)]).
  - reflexivity.
Defined.



(** ** The two pretraining modes on three samples and a big batch of two *)

(** The stub's whole-dataset [train] is its trainer's protocol run on the
    dataset as one batch, and [train_sub] on a batch is [train_sub] on its
    parts in turn: one learning rule, whichever mode drives it. *)
Lemma stub_train_is_protocol (inp out : nat) (last : bool) (w : nat)
    (input : list (list Q)) (max_epochs : nat) :
  train (Demo.stub inp out false last) w input max_epochs
  = Nat.iter max_epochs
      (fun w => (train_sub (Demo.stub inp out false last) input tt tt w).2) w.
Proof. done. Qed.

Lemma stub_train_sub_app (inp out : nat) (pooling last : bool) (w : nat)
    (batch1 batch2 : list (list Q)) :
  (train_sub (Demo.stub inp out pooling last) (batch1 ++ batch2) tt tt w).2
  = (train_sub (Demo.stub inp out pooling last) batch2 tt tt
       (train_sub (Demo.stub inp out pooling last) batch1 tt tt w).2).2.
Proof.
  simpl. unfold Demo.total. rewrite map_app, sum_list_with_app. lia.
Qed.

(** C1 at a failing input.  Two stub layers, big batches of two, one epoch.
    On three samples the full mode trains layer 1 on the activations 7, 8, 9
    and the batch mode on 7, 8 and then 9, 8: the second big batch is one
    sample short, and the slot it does not fill still holds the previous
    batch's 8.  On four samples, two full batches, the modes agree. *)
Theorem pretrain_modes_differ_on_short_batch :
  Demo.contents (pretrain (Demo.traits 2 false false) Demo.net1 true Demo.samples3 1)
    = Ok [6; 24]
  /\ Demo.contents (pretrain (Demo.traits 2 true false) Demo.net1 true Demo.samples3 1)
     = Ok [6; 32]
  /\ (exists d, pretrain (Demo.traits 2 true false) Demo.net1 true Demo.samples3 1
                = Ok (d, [pretraining_begin 1;
                          pretrain_layer_event 0 0;
                          train_sub_event 0 [[1%Q]; [2%Q]];
                          train_sub_event 0 [[3%Q]];
                          pretrain_layer_event 1 0;
                          collect_event 1 [[1%Q]; [2%Q]];
                          train_sub_event 1 [[7%Q]; [8%Q]];
                          collect_event 1 [[3%Q]];
                          train_sub_event 1 [[9%Q]; [8%Q]];
                          pretraining_end]))
  /\ Demo.contents (pretrain (Demo.traits 2 false false) Demo.net1 true Demo.samples4 1)
     = Ok [10; 50]
  /\ Demo.contents (pretrain (Demo.traits 2 true false) Demo.net1 true Demo.samples4 1)
     = Ok [10; 50].
Proof.
  split; [reflexivity|]. split; [reflexivity|]. split; [|split; reflexivity].
  eexists. reflexivity.
Qed.

(** ** When the two pretraining modes agree *)

Lemma batch_loop_run_all {A St} (n : nat) (body : list A -> St -> outcome St) :
  0 < n ->
  forall fuel it s, length it <= fuel ->
    batch_loop fuel n body it s = run_all body (chunks fuel n it) s.
Proof.
  intros Hn. induction fuel as [|fuel IH]; intros it s Hfuel.
  - destruct it; [done | simpl in Hfuel; lia].
  - destruct it as [|x it]; [done|].
    cbn [batch_loop chunks run_all].
    destruct (body (take n (x :: it)) s) as [s'| | | |]; cbn; try done.
    apply IH. rewrite length_drop. simpl in *. lia.
Qed.



Lemma foreach_i_middle {A B} (f : A -> B -> B) (input : list A) :
  forall (pre mid post : list B),
  length mid = length input ->
  foreach_i f (length pre) input (pre ++ mid ++ post) = Ok (pre ++ zip_with f input mid ++ post).
Proof.
  induction input as [|v input IH]; intros pre mid post Hlen.
  - by destruct mid.
  - destruct mid as [|m mid]; [done|]. simpl in *.
    rewrite list_lookup_middle by done. rewrite insert_middle.
    replace (pre ++ f v m :: mid ++ post) with ((pre ++ [f v m]) ++ mid ++ post)
      by (by rewrite <- app_assoc).
    replace (S (length pre)) with (length (pre ++ [f v m]))
      by (rewrite length_app; simpl; lia).
    rewrite IH by lia. by rewrite <- app_assoc.
Qed.

Lemma foreach_i_map {A B} (g : A -> B) (f : A -> B -> B) (input : list A) (out : list B) :
  (forall v o, f v o = g v) ->
  length out = length input ->
  foreach_i f 0 input out = Ok (map g input).
Proof.
  intros Hf Hlen.
  pose proof (foreach_i_middle f input [] out [] Hlen) as Hrun.
  cbn [app length] in Hrun. rewrite !app_nil_r in Hrun. rewrite Hrun. f_equal.
  clear Hrun. revert out Hlen. induction input as [|v input IH]; intros out Hlen.
  - by destruct out.
  - destruct out as [|o out]; [done|]. simpl in *. rewrite Hf, IH by lia. done.
Qed.

Lemma activation_probabilities_rec_forward `{Domain} (done : list layer_t) (v r : vec) :
  done <> [] -> activation_probabilities_rec done v r = forward done v.
Proof.
  revert v. induction done as [|l done IH]; intros v Hne; [done|].
  destruct done as [|l' done]; [done|].
  change (activation_probabilities_rec (l :: l' :: done) v r)
    with (activation_probabilities_rec (l' :: done) (activate_one l.1 l.2 v) r).
  by rewrite IH.
Qed.


Section BatchTraining.
Context `{Domain} (I : nat) (t : rbm_type)
  (collect : rbm -> list sample -> list vec -> outcome (list vec * list vec * list event))
  (G : list sample -> list vec)
  (full : list sample -> Prop) (sized : list vec -> Prop).

(** On a batch that is [full] and a buffer that is [sized], [collect] hands
    [G batch] to [train_sub]. *)
Hypothesis collect_G :
  forall w batch buf, full batch -> sized buf ->
    exists buf' steps, collect w batch buf = Ok (buf', G batch, steps) /\ sized buf'.




End BatchTraining.




Lemma pretrain_layer_cons `{Domain} (I : nat) (l : layer_t) (ls' : list layer_t)
    (random_access : bool) (input : list vec) (max_epochs : nat) :
  pretrain_layer I (l :: ls') random_access input max_epochs
  = if train_next ls' then
      next_a ← foreach_i (fun v _ => activate_one l.1 (train l.1 l.2 input max_epochs) v) 0
                 input (prepare_output l.1 (length input) false 0);
      '(trained, steps') ← pretrain_layer (S I) ls' true next_a max_epochs;
      Ok ((l.1, train l.1 l.2 input max_epochs) :: trained,
          [pretrain_layer_event I (fast_distance random_access input);
           train_event I input max_epochs] ++ steps')
    else Ok ((l.1, train l.1 l.2 input max_epochs) :: ls',
             [pretrain_layer_event I (fast_distance random_access input);
              train_event I input max_epochs]).
Proof. done. Qed.










(** * Further properties of the orchestration *)

(** ** [predict] answers with a unit of the last layer *)

Lemma max_element_scan_lt `{Domain} (l : vec) :
  forall (largest_i : nat) (largest : weight) (i : nat),
  largest_i < i -> max_element_scan largest_i largest i l < i + length l.
Proof.
  induction l as [|x l IH]; intros largest_i largest i Hi; simpl; [lia|].
  destruct (w_ltb largest x).
  - specialize (IH i x (S i)). lia.
  - specialize (IH largest_i largest (S i)). lia.
Qed.

Lemma max_element_lt `{Domain} (v : vec) : v <> [] -> max_element v < length v.
Proof.
  destruct v as [|x v]; [done | intros _]. simpl.
  pose proof (max_element_scan_lt v 0 x 1). lia.
Qed.

Lemma activation_probabilities_length `{svm_lib} (d : dbn) (item : sample) (ln : layer_t) :
  last (tuples d) = Some ln -> fills_output ln.1 ->
  length (activation_probabilities d item) = output_size ln.1.
Proof.
  intros Hlast Hfill. unfold activation_probabilities. rewrite Hlast.
  destruct (tuples d) as [|l0 ls] eqn:Hd; [done|].
  destruct (last_Some (l0 :: ls) ln) as [Hsplit _].
  destruct (Hsplit Hlast) as [front Hfront]. rewrite Hfront.
  rewrite activation_probabilities_rec_snoc. apply Hfill.
Qed.

(** X3.  [predict] answers with the index of a unit of the last layer.  For
    a last layer that fills its [output_size] slots the activation vector
    has [output_size()] entries and the prediction is below that number;
    with no output unit the answer is 0, the index [std::max_element] gives
    for an empty range. *)
Theorem predict_within_output `{svm_lib} (d : dbn) (item : sample) (ln : layer_t) :
  last (tuples d) = Some ln ->
  fills_output ln.1 ->
  length (activation_probabilities d item) = dbn_output_size d
  /\ (0 < dbn_output_size d -> predict d item < dbn_output_size d)
  /\ (dbn_output_size d = 0 -> predict d item = 0).
Proof.
  intros Hlast Hfill.
  pose proof (activation_probabilities_length d item ln Hlast Hfill) as Hlen.
  unfold dbn_output_size, predict, predict_label. rewrite Hlast.
  split; [done|]. split.
  - intros Hpos. rewrite <- Hlen. apply max_element_lt.
    intros Hnil. rewrite Hnil in Hlen. simpl in Hlen. lia.
  - intros Hzero. rewrite Hzero in Hlen.
    by destruct (activation_probabilities d item).
Qed.

(** ** [predict_labels] answers with a class *)

Lemma predict_big_next_a_asserts_nothing `{Domain} (t : rbm_type) (next_a : vec) (labels : nat) :
  asserts_nothing (predict_big_next_a t next_a labels).
Proof.
  unfold predict_big_next_a. apply asserts_nothing_bind.
  - generalize 0 as i. generalize (prepare_one_output t true labels) as buf.
    induction next_a as [|x next_a IH]; intros buf i; [done|]. simpl.
    apply asserts_nothing_bind; [|intros; apply IH].
    unfold write_at. intros msg. by case_decide.
  - intros buf msg. unfold fill_from. by case_decide.
Qed.

Lemma predict_labels_rec_asserts_nothing `{Domain} (ls : list layer_t) (input output : vec)
    (labels : nat) :
  asserts_nothing (predict_labels_rec ls input output labels).
Proof.
  revert input. induction ls as [|l ls IH]; intros input; [done|]. simpl.
  destruct (activate_hidden l.1 l.2 input input) as [next_a next_s].
  destruct ls as [|l' [|l'' ls]].
  - by destruct (activate_visible l.1 l.2 next_a next_s).
  - apply asserts_nothing_bind; [apply predict_big_next_a_asserts_nothing | intros; apply IH].
  - apply IH.
Qed.

(** X5.  [predict_labels] checks one precondition, in [std::size_t].  When
    the last layer's input size differs from the second-to-last layer's
    output size plus [labels] as [std::size_t] has the sum, the call ends
    with the message of the room assertion, and otherwise no assertion
    fails, whatever the layers compute.  For sizes that [std::size_t] holds
    this is the comparison of the integers: the call fails when the last
    layer's input is not the output plus [labels], and no assertion fails
    when it is. *)
Theorem predict_labels_asserts_room `{svm_lib} (d : dbn) (item : sample) (labels : nat)
    (l2 l1 : layer_t) :
  last_two (tuples d) = Some (l2, l1) ->
  (to_size_t (input_size l1.1) <> to_size_t (output_size l2.1 + labels) ->
     predict_labels d item labels = AssertionFailed no_room)
  /\ (to_size_t (input_size l1.1) = to_size_t (output_size l2.1 + labels) ->
      asserts_nothing (predict_labels d item labels))
  /\ (fits_size_t (input_size l1.1) ->
      fits_size_t (output_size l2.1 + labels) ->
      input_size l1.1 <> output_size l2.1 + labels ->
      predict_labels d item labels = AssertionFailed no_room)
  /\ (input_size l1.1 = output_size l2.1 + labels ->
      asserts_nothing (predict_labels d item labels)).
Proof.
  intros Hlast.
  destruct (last_two_Some _ _ _ Hlast) as [front Hd].
  assert (Hhead : exists l0 rest, tuples d = l0 :: rest).
  { rewrite Hd. destruct front; simpl; eauto. }
  destruct Hhead as (l0 & rest & Hhead).
  assert (Hfail : room_for_labels l2.1 l1.1 labels = false ->
            predict_labels d item labels = AssertionFailed no_room).
  { intros Hroom. unfold predict_labels, cpp_assert. by rewrite Hlast, Hhead, Hroom. }
  assert (Hpass : room_for_labels l2.1 l1.1 labels = true ->
            asserts_nothing (predict_labels d item labels)).
  { intros Hroom. unfold predict_labels, cpp_assert. rewrite Hlast, Hhead, Hroom.
    cbn [mbind outcome_bind].
    apply asserts_nothing_bind; [apply predict_labels_rec_asserts_nothing|].
    intros output_a msg. by case_decide. }
  split; [|split; [|split]].
  - intros Hne. apply Hfail. by apply bool_decide_eq_false_2.
  - intros Heq. apply Hpass. by apply bool_decide_eq_true_2.
  - intros Hin Hsum Hne. apply Hfail. rewrite room_for_labels_fits by done.
    by apply bool_decide_eq_false_2.
  - intros Hroom. by apply Hpass, room_for_labels_true.
Qed.

(** The arg-max over the trailing [labels] entries of a vector that has
    them is below [labels]. *)
Lemma max_element_trailing `{Domain} (out : vec) (labels : nat) :
  labels <= length out ->
  (0 < labels -> max_element (drop (length out - labels) out) < labels)
  /\ (labels = 0 -> max_element (drop (length out - labels) out) = 0).
Proof.
  intros Hle.
  assert (Hseg : length (drop (length out - labels) out) = labels)
    by (rewrite length_drop; lia).
  split.
  - intros Hpos. rewrite <- Hseg at 2. apply max_element_lt.
    intros Hnil. rewrite Hnil in Hseg. simpl in Hseg. lia.
  - intros Hzero. destruct (drop (length out - labels) out); [done | simpl in Hseg; lia].
Qed.

(** With room for the labels, [predict_labels] returns the arg-max over the
    trailing entries of the last layer's reconstruction. *)
Lemma predict_labels_returns `{svm_lib} (d : dbn) (item : sample) (labels : nat)
    (front : list layer_t) (l2 l1 : layer_t) :
  tuples d = front ++ [l2; l1] ->
  Forall (fun l => hidden_agrees l.1) (front ++ [l2]) ->
  fills_output l2.1 ->
  input_size l1.1 = output_size l2.1 + labels ->
  (forall v, length (reconstruct l1 v) = input_size l1.1) ->
  exists out,
    predict_labels d item labels = Ok (max_element (drop (length out - labels) out))
    /\ length out = output_size l2.1 + labels.
Proof.
  intros Hd Hls Hfill Hroom Hvis.
  apply Forall_app in Hls as [Hfront Hhid].
  apply (proj1 (Forall_singleton _ _)) in Hhid. simpl in Hhid.
  unfold predict_labels. rewrite Hd, last_two_app.
  assert (Hhead : exists l0 rest, front ++ [l2; l1] = l0 :: rest).
  { destruct front; simpl; eauto. }
  destruct Hhead as (l0 & rest & Hhead). rewrite Hhead, <- Hhead.
  unfold cpp_assert. rewrite room_for_labels_true by done. cbn [mbind outcome_bind].
  rewrite predict_labels_rec_front by done.
  rewrite predict_labels_rec_last_two by (rewrite Hhid; apply Hfill).
  cbn [mbind outcome_bind].
  set (out := reconstruct l1 _).
  assert (Hout : length out = output_size l2.1 + labels) by (unfold out; by rewrite Hvis).
  rewrite decide_True by lia. by exists out.
Qed.

(** X4.  When there is room for the label units, and for layers whose
    [activate_hidden] agrees with [activate_one], [predict_labels] returns,
    and the label it returns is one of the [labels] classes; with
    [labels = 0] it returns 0. *)
Theorem predict_labels_within_labels `{svm_lib} (d : dbn) (item : sample) (labels : nat)
    (front : list layer_t) (l2 l1 : layer_t) :
  tuples d = front ++ [l2; l1] ->
  Forall (fun l => hidden_agrees l.1) (front ++ [l2]) ->
  fills_output l2.1 ->
  input_size l1.1 = output_size l2.1 + labels ->
  (forall v, length (reconstruct l1 v) = input_size l1.1) ->
  exists k, predict_labels d item labels = Ok k
    /\ (0 < labels -> k < labels)
    /\ (labels = 0 -> k = 0).
Proof.
  intros Hd Hls Hfill Hroom Hvis.
  destruct (predict_labels_returns d item labels front l2 l1 Hd Hls Hfill Hroom Hvis)
    as (out & Hrun & Hout).
  exists (max_element (drop (length out - labels) out)). split; [done|].
  apply max_element_trailing. lia.
Qed.

(** ** The forward pass composes *)

(** X6.  The forward pass composes: carrying a sample through the layers
    [lower] and the outcome through the layers [upper] gives what
    [activation_probabilities] gives over [lower ++ upper], whatever the
    buffer in between held.  Batch pretraining relies on it when it calls
    [activation_probabilities<0, I>]. *)
Theorem activation_probabilities_splits `{Domain} (lower upper : list layer_t)
    (input r result : vec) :
  lower <> [] -> upper <> [] ->
  activation_probabilities_rec (lower ++ upper) input result
  = activation_probabilities_rec upper (activation_probabilities_rec lower input r) result.
Proof.
  intros Hlower Hupper. revert input.
  induction lower as [|l lower IH]; intros input; [done|].
  destruct lower as [|l' lower].
  - simpl. by destruct upper.
  - change (activation_probabilities_rec ((l :: l' :: lower) ++ upper) input result)
      with (activation_probabilities_rec ((l' :: lower) ++ upper) (activate_one l.1 l.2 input)
              result).
    by rewrite IH.
Qed.

(** ** Persistence of the whole network *)

Lemma store_blocks `{svm_lib} (cfg : dbn_traits) (d : dbn) (os : list Byte.byte) :
  store cfg d os
  = os ++ concat (map layer_block (tuples d))
       ++ (if DLL_SVM_SUPPORT cfg then svm_store (svm_model d) (svm_loaded d) else []).
Proof.
  unfold store. rewrite store_layers_blocks.
  destruct (DLL_SVM_SUPPORT cfg); [by rewrite <- app_assoc | by rewrite app_nil_r].
Qed.

Lemma store_app `{svm_lib} (cfg : dbn_traits) (d : dbn) (os : list Byte.byte) :
  store cfg d os = os ++ store cfg d [].
Proof. by rewrite (store_blocks cfg d os), (store_blocks cfg d []). Qed.

Lemma load_store `{svm_lib} (cfg : dbn_traits) (d d' : dbn) (rest : list Byte.byte) :
  map fst (tuples d) = map fst (tuples d') ->
  Forall (fun l => is_pooling_layer l.1 = false -> loads_what_it_stores l.1) (tuples d) ->
  (DLL_SVM_SUPPORT cfg = true -> svm_reads_back) ->
  exists model loaded,
    load cfg d' (store cfg d [] ++ rest)
    = ({| tuples := restored (tuples d) (tuples d'); svm_model := model;
          problem := problem d'; svm_loaded := loaded |}, rest)
    /\ (if DLL_SVM_SUPPORT cfg
        then loaded = svm_loaded d /\ (svm_loaded d = true -> model = svm_model d)
        else loaded = svm_loaded d' /\ model = svm_model d').
Proof.
  intros Hshape Hrt Hsvm. unfold load. rewrite store_blocks. cbn [app].
  rewrite <- app_assoc, load_layers_blocks by done.
  destruct (DLL_SVM_SUPPORT cfg).
  - destruct (Hsvm eq_refl (svm_model d) (svm_loaded d) (svm_model d') (svm_loaded d') rest)
      as (m'' & -> & Hm).
    by exists m'', (svm_loaded d).
  - rewrite app_nil_l. by exists (svm_model d'), (svm_loaded d').
Qed.

(** X7.  [load] reads exactly the bytes [store] wrote and leaves the rest
    of the stream to the next reader.  The stored [problem] is no part of
    the persisted model: the target keeps its own.  With SVM support the
    model-loaded flag comes back, and the model with it when one was
    loaded; without, the classifier fields of the target stay. *)
Theorem store_load_whole_network `{svm_lib} (cfg : dbn_traits) (d d' : dbn)
    (rest : list Byte.byte) :
  map fst (tuples d) = map fst (tuples d') ->
  Forall (fun l => is_pooling_layer l.1 = false -> loads_what_it_stores l.1) (tuples d) ->
  (DLL_SVM_SUPPORT cfg = true -> svm_reads_back) ->
  (load cfg d' (store cfg d [] ++ rest)).2 = rest
  /\ tuples (load cfg d' (store cfg d [] ++ rest)).1 = restored (tuples d) (tuples d')
  /\ problem (load cfg d' (store cfg d [] ++ rest)).1 = problem d'
  /\ (DLL_SVM_SUPPORT cfg = true ->
      svm_loaded (load cfg d' (store cfg d [] ++ rest)).1 = svm_loaded d
      /\ (svm_loaded d = true ->
          svm_model (load cfg d' (store cfg d [] ++ rest)).1 = svm_model d))
  /\ (DLL_SVM_SUPPORT cfg = false ->
      svm_loaded (load cfg d' (store cfg d [] ++ rest)).1 = svm_loaded d'
      /\ svm_model (load cfg d' (store cfg d [] ++ rest)).1 = svm_model d').
Proof.
  intros Hshape Hrt Hsvm.
  destruct (load_store cfg d d' rest Hshape Hrt Hsvm) as (model & loaded & -> & Hcl).
  simpl. split; [done|]. split; [done|]. split; [done|].
  split; intros Hs; rewrite Hs in Hcl; exact Hcl.
Qed.

(** X8.  [store] appends to its stream: two networks stored one after the
    other are read back by two [load]s in the same order, the second
    starting where the first stopped. *)
Theorem store_load_two_networks `{svm_lib} (cfg : dbn_traits) (d1 d2 d1' d2' : dbn)
    (rest : list Byte.byte) :
  map fst (tuples d1) = map fst (tuples d1') ->
  map fst (tuples d2) = map fst (tuples d2') ->
  Forall (fun l => is_pooling_layer l.1 = false -> loads_what_it_stores l.1)
    (tuples d1 ++ tuples d2) ->
  (DLL_SVM_SUPPORT cfg = true -> svm_reads_back) ->
  tuples (load cfg d1' (store cfg d2 (store cfg d1 []) ++ rest)).1
    = restored (tuples d1) (tuples d1')
  /\ tuples (load cfg d2' (load cfg d1' (store cfg d2 (store cfg d1 []) ++ rest)).2).1
     = restored (tuples d2) (tuples d2')
  /\ (load cfg d2' (load cfg d1' (store cfg d2 (store cfg d1 []) ++ rest)).2).2 = rest.
Proof.
  intros Hshape1 Hshape2 Hrt Hsvm. apply Forall_app in Hrt as [Hrt1 Hrt2].
  rewrite (store_app cfg d2), <- app_assoc.
  destruct (load_store cfg d1 d1' (store cfg d2 [] ++ rest) Hshape1 Hrt1 Hsvm)
    as (model1 & loaded1 & -> & _).
  cbn [fst snd].
  destruct (load_store cfg d2 d2' rest Hshape2 Hrt2 Hsvm) as (model2 & loaded2 & -> & _).
  done.
Qed.

Lemma load_layers_shape `{Domain} (ls : list layer_t) :
  forall ins : list Byte.byte,
  map fst (load_layers ls ins).1 = map fst ls
  /\ forall i l, ls !! i = Some l -> is_pooling_layer l.1 = true ->
       (load_layers ls ins).1 !! i = Some l.
Proof.
  induction ls as [|l ls IH]; intros ins; [done|].
  simpl. unfold load_layer.
  destruct (is_pooling_layer l.1) eqn:Hpool.
  - destruct (IH ins) as [Htypes Hkeep].
    destruct (load_layers ls ins) as [ls' ins']. simpl in *. split; [by rewrite Htypes|].
    intros [|i] l' Hl' Hp; simpl in *; [done | by apply Hkeep].
  - destruct (load_rbm l.1 l.2 ins) as [w ins1].
    destruct (IH ins1) as [Htypes Hkeep].
    destruct (load_layers ls ins1) as [ls' ins']. simpl in *. split; [by rewrite Htypes|].
    intros [|i] l' Hl' Hp; simpl in *; [|by apply Hkeep].
    injection Hl' as <-. congruence.
Qed.

(** X9.  Whatever the stream holds, [load] changes layer contents only: the
    number of layers and their types are as before, a pooling layer is left
    as it was, and the stored [problem] is not touched.  Without SVM support
    neither are the model and its flag, and the stream is read by the
    layers alone. *)
Theorem load_keeps_shape `{svm_lib} (cfg : dbn_traits) (d : dbn) (ins : list Byte.byte) :
  map fst (tuples (load cfg d ins).1) = map fst (tuples d)
  /\ (forall i l, tuples d !! i = Some l -> is_pooling_layer l.1 = true ->
        tuples (load cfg d ins).1 !! i = Some l)
  /\ problem (load cfg d ins).1 = problem d
  /\ (DLL_SVM_SUPPORT cfg = false ->
      svm_model (load cfg d ins).1 = svm_model d
      /\ svm_loaded (load cfg d ins).1 = svm_loaded d
      /\ (load cfg d ins).2 = (load_layers (tuples d) ins).2).
Proof.
  pose proof (load_layers_shape (tuples d) ins) as [Htypes Hkeep].
  unfold load. destruct (load_layers (tuples d) ins) as [ls ins1]. simpl in *.
  destruct (DLL_SVM_SUPPORT cfg).
  - destruct (svm_load (svm_model d) (svm_loaded d) ins1) as [[model loaded] ins2].
    simpl. repeat split; done.
  - simpl. repeat split; done.
Qed.

(** ** The classifier after training and after loading *)

Lemma get_final_activation_probabilities_features `{svm_lib} (cfg : dbn_traits) (d : dbn)
    (item : sample) :
  (concatenate cfg = true ->
   Forall (fun l => fills_output l.1 /\ one_s_agrees l.1) (tuples d)) ->
  get_final_activation_probabilities cfg d item = Ok (features cfg d item).
Proof.
  intros Hls. unfold get_final_activation_probabilities, features.
  destruct (concatenate cfg); [|done].
  by apply full_activation_probabilities_chain, Hls.
Qed.

Lemma add_activation_probabilities_final `{svm_lib} (cfg : dbn_traits) (d : dbn)
    (result : list vec) (item : sample) :
  tuples d <> [] ->
  add_activation_probabilities cfg d result item
  = (back ← get_final_activation_probabilities cfg d item; Ok (result ++ [back])).
Proof.
  intros Hne. unfold add_activation_probabilities, get_final_activation_probabilities.
  destruct (concatenate cfg).
  - unfold full_activation_probabilities_into, full_activation_probabilities.
    by destruct (tuples d).
  - unfold activation_probabilities, activation_probabilities_into.
    destruct (tuples d) as [|l0 ls] eqn:Hd; [done|].
    destruct (last (l0 :: ls)) as [ln|] eqn:Hlast; [done | by apply last_None in Hlast].
Qed.

Lemma collect_samples_final `{svm_lib} (cfg : dbn_traits) (d : dbn)
    (training_data : list sample) (svm_samples : list vec) :
  tuples d <> [] ->
  (concatenate cfg = true ->
   Forall (fun l => fills_output l.1 /\ one_s_agrees l.1) (tuples d)) ->
  collect_samples cfg d svm_samples training_data
  = Ok (svm_samples ++ map (features cfg d) training_data).
Proof.
  intros Hne Hls. revert svm_samples.
  induction training_data as [|item rest IH]; intros svm_samples; simpl.
  - by rewrite app_nil_r.
  - rewrite add_activation_probabilities_final by done.
    rewrite get_final_activation_probabilities_features by done. cbn.
    rewrite IH. by rewrite <- app_assoc.
Qed.

(** X11.  When [svm::check] accepts the problem, [svm_train] returns true
    with the model trained on the problem built from the samples' features,
    sample by sample in their order, and with the model-loaded flag set; the
    layers are as before.  [svm_grid_search] returns true as well and
    installs nothing: model and flag are as before, the problem alone is
    replaced. *)
Theorem svm_train_installs_model `{svm_lib} (cfg : dbn_traits) (d : dbn)
    (training_data : list sample) (labels : list nat) (parameters : svm_parameter)
    (n_fold : nat) (g : svm_rbf_grid) :
  tuples d <> [] ->
  (concatenate cfg = true ->
   Forall (fun l => fills_output l.1 /\ one_s_agrees l.1) (tuples d)) ->
  (svm_check (svm_make_problem labels (map (features cfg d) training_data) (scale cfg))
     parameters = true ->
   svm_train cfg d training_data labels parameters
   = Ok ({| tuples := tuples d;
            svm_model :=
              svm_train_model
                (svm_make_problem labels (map (features cfg d) training_data) (scale cfg))
                parameters;
            problem := svm_make_problem labels (map (features cfg d) training_data) (scale cfg);
            svm_loaded := true |}, true))
  /\ (svm_check (svm_make_problem labels (map (features cfg d) training_data) (scale cfg))
        default_svm_parameters = true ->
      svm_grid_search cfg d training_data labels n_fold g
      = Ok ({| tuples := tuples d; svm_model := svm_model d;
               problem := svm_make_problem labels (map (features cfg d) training_data)
                            (scale cfg);
               svm_loaded := svm_loaded d |}, true)).
Proof.
  intros Hne Hls.
  assert (Hmake : make_problem cfg d training_data labels (scale cfg)
            = Ok (set_problem d (svm_make_problem labels (map (features cfg d) training_data)
                                   (scale cfg)))).
  { unfold make_problem. by rewrite collect_samples_final. }
  split; intros Hcheck; unfold svm_train, svm_grid_search; rewrite Hmake; cbn;
    rewrite Hcheck; done.
Qed.

(** X12.  After a successful [svm_train], [svm_predict] asks the trained
    model about the features [get_final_activation_probabilities] computes:
    the feature map the training samples went through, under the same
    [concatenate] switch. *)
Theorem svm_predict_after_train `{svm_lib} (cfg : dbn_traits) (d : dbn)
    (training_data : list sample) (labels : list nat) (parameters : svm_parameter) :
  tuples d <> [] ->
  (concatenate cfg = true ->
   Forall (fun l => fills_output l.1 /\ one_s_agrees l.1) (tuples d)) ->
  svm_check (svm_make_problem labels (map (features cfg d) training_data) (scale cfg))
    parameters = true ->
  exists d',
    svm_train cfg d training_data labels parameters = Ok (d', true)
    /\ forall item,
         svm_predict cfg d' item
         = Ok (svm_predict_model
                 (svm_train_model
                    (svm_make_problem labels (map (features cfg d) training_data) (scale cfg))
                    parameters)
                 (features cfg d item)).
Proof.
  intros Hne Hls Hcheck.
  assert (Hmake : make_problem cfg d training_data labels (scale cfg)
            = Ok (set_problem d (svm_make_problem labels (map (features cfg d) training_data)
                                   (scale cfg)))).
  { unfold make_problem. by rewrite collect_samples_final. }
  eexists. split.
  - unfold svm_train. rewrite Hmake. cbn. rewrite Hcheck. reflexivity.
  - intros item. unfold svm_predict.
    rewrite get_final_activation_probabilities_features by done. done.
Qed.

Lemma activation_chain_same `{Domain} (ls ls' : list layer_t) (input : vec) :
  Forall2 same_activation ls ls' -> activation_chain ls input = activation_chain ls' input.
Proof.
  intros Hsame. revert input.
  induction Hsame as [|l l' ls ls' (_ & Hact & _) _ IH]; intros input; [done|].
  simpl. by rewrite Hact, IH.
Qed.

Lemma features_same `{svm_lib} (cfg : dbn_traits) (d1 d2 : dbn) (item : sample) :
  Forall2 same_activation (tuples d1) (tuples d2) ->
  features cfg d1 item = features cfg d2 item.
Proof.
  intros Hsame. unfold features. destruct (concatenate cfg).
  - rewrite (activation_chain_same _ _ _ Hsame). f_equal. f_equal.
    unfold converted_sample. destruct Hsame as [|l l' ls ls' (_ & _ & Hconv) _]; [done|].
    apply Hconv.
  - by apply activation_probabilities_same.
Qed.

Lemma same_types_Forall `{Domain} (P : rbm_type -> Prop) (ls ls' : list layer_t) :
  map fst ls = map fst ls' -> Forall (fun l => P l.1) ls -> Forall (fun l => P l.1) ls'.
Proof.
  revert ls'. induction ls as [|l ls IH]; intros [|l' ls'] Hty Hls; try done.
  simpl in Hty. injection Hty as Hl Hty. apply Forall_cons in Hls as [Hp Hls].
  constructor; [by rewrite <- Hl | by apply IH].
Qed.

Lemma restored_types `{Domain} (stored : list layer_t) :
  forall target, map fst stored = map fst target ->
    map fst (restored stored target) = map fst stored.
Proof.
  induction stored as [|l stored IH]; intros [|l' target] Hty; try done.
  simpl in Hty. injection Hty as Hl Hty. unfold restored in *. simpl.
  rewrite IH by done. by destruct (is_pooling_layer l.1); [rewrite <- Hl|].
Qed.

(** X10.  A network loaded from what a network with a trained classifier
    stored classifies alike: [predict] and [svm_predict] give on it what
    they give on the stored network. *)
Theorem reloaded_network_classifies_alike `{svm_lib} (cfg : dbn_traits) (d d' : dbn)
    (rest : list Byte.byte) (item : sample) :
  map fst (tuples d) = map fst (tuples d') ->
  Forall (fun l => if is_pooling_layer l.1 then parameter_free l.1
                   else loads_what_it_stores l.1) (tuples d) ->
  (concatenate cfg = true ->
   Forall (fun l => fills_output l.1 /\ one_s_agrees l.1) (tuples d)) ->
  DLL_SVM_SUPPORT cfg = true ->
  svm_reads_back ->
  svm_loaded d = true ->
  predict (load cfg d' (store cfg d [] ++ rest)).1 item = predict d item
  /\ svm_predict cfg (load cfg d' (store cfg d [] ++ rest)).1 item = svm_predict cfg d item.
Proof.
  intros Hshape Hls Hcat Hsupport Hsvm Hloaded.
  assert (Hrt : Forall (fun l => is_pooling_layer l.1 = false -> loads_what_it_stores l.1)
                  (tuples d)).
  { eapply Forall_impl; [exact Hls|]. intros l Hl Hp. simpl in *.
    by destruct (is_pooling_layer l.1). }
  assert (Hfree : Forall (fun l => is_pooling_layer l.1 = true -> parameter_free l.1)
                    (tuples d)).
  { eapply Forall_impl; [exact Hls|]. intros l Hl Hp. simpl in *.
    by destruct (is_pooling_layer l.1). }
  destruct (load_store cfg d d' rest Hshape Hrt (fun _ => Hsvm))
    as (model & loaded & -> & Hcl).
  rewrite Hsupport in Hcl. destruct Hcl as [-> Hmodel]. rewrite (Hmodel Hloaded).
  pose proof (restored_same (tuples d) (tuples d') Hshape Hfree) as Hsame.
  cbn [fst]. split.
  - unfold predict. f_equal. by apply activation_probabilities_same.
  - unfold svm_predict.
    rewrite !get_final_activation_probabilities_features; try done.
    + cbn. do 2 f_equal. by apply features_same.
    + intros Hc. cbn [tuples].
      apply (same_types_Forall (fun t => fills_output t /\ one_s_agrees t) (tuples d));
        [by rewrite restored_types | by apply Hcat].
Qed.

(** ** Training with labels, layer after layer *)

Lemma one_hot_out_of_range `{Domain} (labels label : nat) :
  labels <= label -> one_hot labels label = replicate labels w_zero.
Proof.
  intros Hle. unfold one_hot.
  apply list_eq. intros i. rewrite list_lookup_fmap.
  destruct (decide (i < labels)) as [Hi | Hi].
  - rewrite lookup_seq_lt, lookup_replicate_2 by done. simpl.
    by rewrite decide_False by lia.
  - rewrite lookup_seq_ge by lia. symmetry. apply lookup_replicate_None. lia.
Qed.

(** X13.  [train_with_labels] does not check the label values: a label that
    is not below [labels] equals no label unit's index, and the sample's row
    ends with [labels] zeros. *)
Theorem train_with_labels_label_out_of_range `{Domain} (t : rbm_type) (acts : list vec)
    (lit : list nat) (labels : nat) :
  length lit = length acts ->
  Forall (fun a => length a = output_size t) acts ->
  exists rows,
    train_big_next_a t (length acts) acts lit labels = Ok rows
    /\ forall i a label, acts !! i = Some a -> lit !! i = Some label -> labels <= label ->
         rows !! i = Some (a ++ replicate labels w_zero).
Proof.
  intros Hlen Hout. eexists. split; [by apply train_big_next_a_spec|].
  intros i a label Ha Hlabel Hle.
  apply lookup_zip_with_Some. exists a, label.
  by rewrite one_hot_out_of_range.
Qed.

Lemma train_with_labels_rec_run `{Domain} (l2 l1 : layer_t) (labels max_epochs : nat)
    (front : list layer_t) :
  forall (I : nat) (input : list vec) (lit : list nat),
  Forall (fun l => many_agrees l.1) (front ++ [l2]) ->
  fills_output l2.1 ->
  length lit = length input ->
  exists front' w2 w1 inputs,
    train_with_labels_rec I (front ++ [l2; l1]) input lit labels max_epochs
    = Ok (front' ++ [(l2.1, w2); (l1.1, w1)], layer_steps I max_epochs inputs)
    /\ map fst front' = map fst front
    /\ length inputs = length front + 2
    /\ Forall (fun inp => length inp = length input) inputs.
Proof.
  induction front as [|l front IH]; intros I input lit Hmany Hfill Hlen.
  - apply (proj1 (Forall_singleton _ _)) in Hmany. simpl in Hmany.
    set (w := train l2.1 l2.2 input max_epochs).
    assert (Hbig : train_big_next_a l2.1 (length input) (activate_many l2.1 w input).1 lit labels
                   = Ok (augmented l2.1 w input lit labels)).
    { rewrite Hmany. unfold augmented.
      rewrite <- (length_map (activate_one l2.1 w) input) at 1.
      apply train_big_next_a_spec; [by rewrite length_map|].
      apply Forall_map, Forall_forall. intros v _. apply Hfill. }
    assert (Hcount : length (augmented l2.1 w input lit labels) = length input).
    { unfold augmented. rewrite length_zip_with, length_map. lia. }
    exists [], w, (train l1.1 l1.2 (augmented l2.1 w input lit labels) max_epochs),
      [input; augmented l2.1 w input lit labels].
    split; [|split; [done | split; [done|]]].
    + simpl. fold w.
      destruct (activate_many l2.1 w input) as [next_a next_s]. simpl in Hbig.
      rewrite Hbig. cbn. done.
    + repeat constructor; done.
  - apply Forall_cons in Hmany as [Hl Hmany].
    set (w := train l.1 l.2 input max_epochs).
    destruct (IH (S I) (map (activate_one l.1 w) input) lit Hmany Hfill)
      as (front' & w2 & w1 & inputs & Hrun & Hty & Hcount & Hall);
      [by rewrite length_map|].
    exists ((l.1, w) :: front'), w2, w1, (input :: inputs).
    split; [|split; [simpl; by rewrite Hty | split; [simpl; lia|]]].
    + assert (Hshape : exists a b rest, front ++ [l2; l1] = a :: b :: rest).
      { destruct front as [|a [|b front]]; simpl; eauto. }
      destruct Hshape as (a & b & rest & Hshape).
      change ((l :: front) ++ [l2; l1]) with (l :: (front ++ [l2; l1])).
      cbn [train_with_labels_rec]. fold w.
      specialize (Hl w input). destruct (activate_many l.1 w input) as [next_a next_s].
      simpl in Hl. subst next_a.
      rewrite Hshape, <- Hshape, Hrun. cbn. done.
    + constructor; [done|]. eapply Forall_impl; [exact Hall|].
      intros inp Hinp. simpl in Hinp. by rewrite Hinp, length_map.
Qed.

Lemma train_with_labels_run `{svm_lib} (d : dbn) (training_data : list sample)
    (training_labels : list nat) (labels max_epochs : nat) (front : list layer_t)
    (l2 l1 : layer_t) :
  tuples d = front ++ [l2; l1] ->
  (forall l0, head (tuples d) = Some l0 -> converts_each l0.1) ->
  Forall (fun l => many_agrees l.1) (front ++ [l2]) ->
  fills_output l2.1 ->
  length training_data = length training_labels ->
  input_size l1.1 = output_size l2.1 + labels ->
  exists front' w2 w1 inputs,
    train_with_labels d training_data training_labels labels max_epochs
    = Ok (set_tuples d (front' ++ [(l2.1, w2); (l1.1, w1)]),
          [pretraining_begin max_epochs] ++ layer_steps 0 max_epochs inputs
            ++ [pretraining_end])
    /\ map fst front' = map fst front
    /\ length inputs = length front + 2
    /\ Forall (fun input => length input = length training_data) inputs.
Proof.
  intros Hd Hconv Hmany Hfill Hlen Hroom.
  assert (Hhead : exists l0 rest, front ++ [l2; l1] = l0 :: rest).
  { destruct front; simpl; eauto. }
  destruct Hhead as (l0 & rest & Hhead).
  assert (Hl0 : converts_each l0.1) by (apply Hconv; by rewrite Hd, Hhead).
  destruct (train_with_labels_rec_run l2 l1 labels max_epochs front 0
              (convert_input l0.1 l0.2 training_data) training_labels Hmany Hfill)
    as (front' & w2 & w1 & inputs & Hrun & Hty & Hcount & Hall);
    [by rewrite Hl0|].
  unfold train_with_labels, train_with_labels_range, cpp_assert.
  rewrite Hd, last_two_app, Hhead, <- Hhead.
  rewrite !(bool_decide_eq_true_2 _ Hlen), !(room_for_labels_true _ _ _ Hroom).
  cbn [mbind outcome_bind]. rewrite Hrun. cbn [mbind outcome_bind].
  exists front', w2, w1, inputs. split; [reflexivity|]. split; [done|]. split; [done|].
  eapply Forall_impl; [exact Hall|]. intros inp Hinp. simpl in Hinp. by rewrite Hinp, Hl0.
Qed.

(** X14.  When its two preconditions hold and the layers below the last
    compute sample by sample, [train_with_labels] returns.  Every layer of
    the stack is trained, the last one included whatever [pretrain_last]
    says, in stack order, each after the watcher was told the number of
    samples and each on one vector per sample.  Layer contents apart, the
    network is as before. *)
Theorem train_with_labels_trains_every_layer `{svm_lib} (d : dbn) (training_data : list sample)
    (training_labels : list nat) (labels max_epochs : nat) (front : list layer_t)
    (l2 l1 : layer_t) :
  tuples d = front ++ [l2; l1] ->
  (forall l0, head (tuples d) = Some l0 -> converts_each l0.1) ->
  Forall (fun l => many_agrees l.1) (front ++ [l2]) ->
  fills_output l2.1 ->
  length training_data = length training_labels ->
  input_size l1.1 = output_size l2.1 + labels ->
  exists d' inputs,
    train_with_labels d training_data training_labels labels max_epochs
    = Ok (d', [pretraining_begin max_epochs] ++ layer_steps 0 max_epochs inputs
              ++ [pretraining_end])
    /\ map fst (tuples d') = map fst (tuples d)
    /\ svm_model d' = svm_model d /\ problem d' = problem d /\ svm_loaded d' = svm_loaded d
    /\ length inputs = length (tuples d)
    /\ Forall (fun input => length input = length training_data) inputs.
Proof.
  intros Hd Hconv Hmany Hfill Hlen Hroom.
  destruct (train_with_labels_run d training_data training_labels labels max_epochs front l2 l1)
    as (front' & w2 & w1 & inputs & Hrun & Hty & Hcount & Hall); try done.
  eexists _, inputs. split; [exact Hrun|].
  cbn [tuples set_tuples svm_model problem svm_loaded]. rewrite Hd.
  split; [by rewrite !map_app, Hty|]. split; [done|]. split; [done|]. split; [done|].
  split; [rewrite Hcount, length_app; simpl; lia | done].
Qed.

(** X15.  A network that [train_with_labels] trained with [labels] label
    units answers [predict_labels] with the same [labels]: training changes
    no layer type, so there is room again, and the label returned is below
    [labels]. *)
Theorem train_with_labels_then_predict_labels `{svm_lib} (d : dbn)
    (training_data : list sample) (training_labels : list nat) (labels max_epochs : nat)
    (front : list layer_t) (l2 l1 : layer_t) :
  tuples d = front ++ [l2; l1] ->
  (forall l0, head (tuples d) = Some l0 -> converts_each l0.1) ->
  Forall (fun l => many_agrees l.1 /\ hidden_agrees l.1) (front ++ [l2]) ->
  fills_output l2.1 ->
  (forall w v, length (reconstruct (l1.1, w) v) = input_size l1.1) ->
  length training_data = length training_labels ->
  input_size l1.1 = output_size l2.1 + labels ->
  0 < labels ->
  exists d' steps,
    train_with_labels d training_data training_labels labels max_epochs = Ok (d', steps)
    /\ forall item, exists k, predict_labels d' item labels = Ok k /\ k < labels.
Proof.
  intros Hd Hconv Hls Hfill Hvis Hlen Hroom Hpos.
  assert (Hmany : Forall (fun l => many_agrees l.1) (front ++ [l2]))
    by (eapply Forall_impl; [exact Hls | by intros l [? _]]).
  assert (Hhid : Forall (fun l => hidden_agrees l.1) (front ++ [l2]))
    by (eapply Forall_impl; [exact Hls | by intros l [_ ?]]).
  destruct (train_with_labels_run d training_data training_labels labels max_epochs front l2 l1)
    as (front' & w2 & w1 & inputs & Hrun & Hty & _); try done.
  eexists _, _. split; [exact Hrun|].
  intros item.
  destruct (predict_labels_returns
              (set_tuples d (front' ++ [(l2.1, w2); (l1.1, w1)])) item labels front'
              (l2.1, w2) (l1.1, w1)) as (out & Hk & Hout);
    [done | | done | done | intros v; apply Hvis |].
  - apply (same_types_Forall hidden_agrees (front ++ [l2])); [|done].
    by rewrite !map_app, Hty.
  - exists (max_element (drop (length out - labels) out)). split; [done|].
    apply max_element_trailing; simpl in *; lia.
Qed.

(** ** The full-materialization mode *)

Lemma pretrain_layer_run `{Domain} (max_epochs : nat) (ls : list layer_t) :
  forall (I : nat) (l : layer_t) (random_access : bool) (input : list vec),
  exists trained inputs,
    pretrain_layer I (l :: ls) random_access input max_epochs
    = Ok (trained,
          pretrain_layer_event I (fast_distance random_access input)
            :: train_event I input max_epochs :: layer_steps (S I) max_epochs inputs)
    /\ map fst trained = map fst (l :: ls)
    /\ Forall (fun inp => length inp = length input) inputs
    /\ S (length inputs) = trained_layers ls
    /\ (forall k input_k, (input :: inputs) !! k = Some input_k ->
          exists lk, (l :: ls) !! k = Some lk
            /\ trained !! k = Some (lk.1, train lk.1 lk.2 input_k max_epochs)
            /\ forall next, inputs !! k = Some next ->
                 next = map (activate_one lk.1 (train lk.1 lk.2 input_k max_epochs)) input_k)
    /\ (forall k, trained_layers ls <= k -> trained !! k = (l :: ls) !! k).
Proof.
  induction ls as [|l1 ls IH]; intros I l random_access input.
  - exists [(l.1, train l.1 l.2 input max_epochs)], []. simpl.
    split; [done|]. split; [done|]. split; [done|]. split; [done|]. split.
    + intros [|k] input_k Hk; simpl in Hk; [|done]. injection Hk as <-.
      exists l. by split; [|split].
    + intros [|k] Hk; [unfold trained_layers in Hk; simpl in Hk; lia | done].
  - set (w := train l.1 l.2 input max_epochs).
    rewrite pretrain_layer_cons. fold w.
    destruct (train_next (l1 :: ls)) eqn:Hnext.
    + rewrite (foreach_i_map (activate_one l.1 w))
        by (done || (by rewrite prepare_output_length)).
      cbn [mbind outcome_bind].
      destruct (IH (S I) l1 true (map (activate_one l.1 w) input))
        as (trained & inputs & -> & Hty & Hall & Hcount & Hk & Hrest).
      cbn [mbind outcome_bind].
      assert (Htl : trained_layers (l1 :: ls) = S (trained_layers ls)).
      { unfold trained_layers. destruct ls as [|l2 ls].
        - simpl in *. by rewrite Hnext.
        - change (last (l1 :: l2 :: ls)) with (last (l2 :: ls)).
          destruct (last (l2 :: ls)) as [ln|] eqn:Hlast; [|by apply last_None in Hlast].
          by destruct (pretrain_last ln.1). }
      exists ((l.1, w) :: trained), (map (activate_one l.1 w) input :: inputs).
      split.
      { simpl. unfold fast_distance. by rewrite length_map. }
      split; [simpl; by rewrite Hty|]. split.
      { constructor; [by rewrite length_map|].
        eapply Forall_impl; [exact Hall|]. intros inp Hinp. simpl in Hinp.
        by rewrite Hinp, length_map. }
      split; [simpl; lia|]. split.
      * intros [|k] input_k Hin; simpl in Hin.
        -- injection Hin as <-. exists l. split; [done|]. split; [done|].
           intros next Hn. simpl in Hn. by injection Hn as <-.
        -- destruct (Hk k input_k Hin) as (lk & Hlk & Htr & Hnx).
           exists lk. by split; [|split].
      * intros [|k] Hge; [lia|]. simpl. apply Hrest. lia.
    + destruct ls as [|l2 ls]; [|done]. simpl in Hnext.
      exists [(l.1, w); l1], [].
      split; [done|]. split; [done|]. split; [done|]. split.
      { unfold trained_layers. simpl. by rewrite Hnext. }
      split.
      * intros [|k] input_k Hin; simpl in Hin; [|done]. injection Hin as <-.
        exists l. by split; [|split].
      * unfold trained_layers. simpl. rewrite Hnext. intros [|[|k]] Hge; [lia | done | done].
Qed.

(** X16.  The full-materialization mode of [pretrain] compiles only where
    the batch mode does: [pretrain] names [pretrain_layer_batch<0>] whatever
    the mode, and for a layer 0 that is a pooling layer or not marked
    [pretrain_last] that call is ambiguous.  For every other stack the mode
    has no precondition: it returns for every sample range.  The watcher
    hears the begin, then for each trained layer in stack order its index
    and the size of its input (at layer 0 what [fast_distance] makes of it),
    followed by the layer's [train], then the end.  Layer 0 is trained on
    what the input converter hands out: the converted samples, or the
    samples themselves when they are of the layer's input type.  A last
    layer above layer 0 is trained when it is marked [pretrain_last], and
    left as it was otherwise.  Every trained layer sees as many vectors as
    layer 0, and layer contents apart the network is as before. *)
Theorem pretrain_full_mode_returns `{svm_lib} (cfg : dbn_traits) (d : dbn)
    (random_access : bool) (training_data : list sample) (max_epochs : nat)
    (l0 : layer_t) (ls : list layer_t) :
  tuples d = l0 :: ls ->
  save_memory cfg = false ->
  (batch_layer_ignore l0.1 = true ->
     pretrain cfg d random_access training_data max_epochs = IllFormed)
  /\ (batch_layer_ignore l0.1 = false ->
      exists d' inputs,
        pretrain cfg d random_access training_data max_epochs
        = Ok (d', [pretraining_begin max_epochs;
                   pretrain_layer_event 0
                     (fast_distance random_access (input_converter l0 training_data));
                   train_event 0 (input_converter l0 training_data) max_epochs]
                  ++ layer_steps 1 max_epochs inputs ++ [pretraining_end])
        /\ map fst (tuples d') = map fst (tuples d)
        /\ svm_model d' = svm_model d /\ problem d' = problem d
        /\ svm_loaded d' = svm_loaded d
        /\ Forall (fun input => length input = length (input_converter l0 training_data))
             inputs
        /\ S (length inputs) = trained_layers ls
        /\ (forall k, trained_layers ls <= k -> tuples d' !! k = tuples d !! k)).
Proof.
  intros Hd Hmode. split; intros Hfirst.
  - unfold pretrain. by rewrite Hmode, Hd, Hfirst.
  - destruct (pretrain_layer_run max_epochs ls 0 l0 random_access
                (input_converter l0 training_data))
      as (trained & inputs & Hrun & Hty & Hall & Hcount & _ & Hrest).
    unfold pretrain. rewrite Hmode, Hd, Hfirst, Hrun. cbn [mbind outcome_bind].
    exists (set_tuples d trained), inputs.
    split; [done|]. cbn [tuples set_tuples svm_model problem svm_loaded].
    by repeat split.
Qed.

(** X17.  On a stack whose layer 0 the batch mode trains (for another one
    [pretrain] does not compile), the full mode trains greedily, layer by
    layer: the layer at index [k] is trained on the [k]-th input, layer 0 on
    what the input converter hands out, and the next input holds, vector by
    vector, the activation that the freshly trained layer computes on this
    one.  The input of layer 0 is [convert_input] of the samples when their
    type is not the layer's input type, and the samples as they are when it
    is. *)
Theorem pretrain_full_mode_greedy `{svm_lib} (cfg : dbn_traits) (d : dbn)
    (random_access : bool) (training_data : list sample) (max_epochs : nat)
    (l0 : layer_t) (ls : list layer_t) :
  tuples d = l0 :: ls ->
  save_memory cfg = false ->
  batch_layer_ignore l0.1 = false ->
  exists d' steps inputs,
    pretrain cfg d random_access training_data max_epochs = Ok (d', steps)
    /\ head inputs = Some (input_converter l0 training_data)
    /\ (value_type_is_input_one_t l0.1 = None ->
        head inputs = Some (convert_input l0.1 l0.2 training_data))
    /\ (forall same, value_type_is_input_one_t l0.1 = Some same ->
        head inputs = Some (as_input_one_t same <$> training_data))
    /\ length inputs = trained_layers ls
    /\ forall k input_k, inputs !! k = Some input_k ->
         train_event k input_k max_epochs ∈ steps
         /\ exists lk, tuples d !! k = Some lk
              /\ tuples d' !! k = Some (lk.1, train lk.1 lk.2 input_k max_epochs)
              /\ forall next, inputs !! S k = Some next ->
                   next = map (activate_one lk.1 (train lk.1 lk.2 input_k max_epochs)) input_k.
Proof.
  intros Hd Hmode Hfirst.
  destruct (pretrain_layer_run max_epochs ls 0 l0 random_access
              (input_converter l0 training_data))
    as (trained & inputs & Hrun & _ & _ & Hcount & Hk & _).
  unfold pretrain. rewrite Hmode, Hd, Hfirst, Hrun. cbn [mbind outcome_bind].
  eexists (set_tuples d trained), _, (input_converter l0 training_data :: inputs).
  split; [reflexivity|]. split; [done|].
  split; [intros Hnone; unfold input_converter; by rewrite Hnone|].
  split; [intros same Hsame; unfold input_converter; by rewrite Hsame|].
  split; [simpl; lia|].
  intros k input_k Hin. split.
  - apply list_elem_of_further.
    assert (Hsteps : forall (ins : list (list vec)) I j inp, ins !! j = Some inp ->
              train_event (I + j) inp max_epochs ∈ layer_steps I max_epochs ins).
    { induction ins as [|x ins IHins]; intros I j inp Hj; [done|].
      destruct j as [|j]; simpl in *.
      - injection Hj as <-. rewrite Nat.add_0_r.
        apply list_elem_of_further, list_elem_of_here.
      - do 2 apply list_elem_of_further.
        replace (I + S j) with (S I + j) by lia. by apply IHins. }
    destruct k as [|k]; simpl in Hin.
    + injection Hin as <-. apply list_elem_of_further, list_elem_of_here.
    + do 2 apply list_elem_of_further. apply elem_of_app. left.
      apply (Hsteps inputs 1 k input_k Hin).
  - cbn [tuples set_tuples]. by apply Hk.
Qed.

(** ** Batch mode without progress, and without work *)

Lemma batch_loop_no_progress {A St} (body : list A -> St -> outcome St) :
  (forall s, exists s', body [] s = Ok s') ->
  forall fuel it s, it <> [] -> batch_loop fuel 0 body it s = Diverges.
Proof.
  intros Hbody. induction fuel as [|fuel IH]; intros it s Hne.
  - by destruct it.
  - destruct it as [|x it]; [done|]. cbn [batch_loop]. rewrite take_0, drop_0.
    destruct (Hbody s) as [s' ->]. cbn. by apply IH.
Qed.

Lemma pretrain_epochs_no_progress `{Domain} (I : nat) (t : rbm_type)
    (collect : rbm -> list sample -> list vec -> outcome (list vec * list vec * list event))
    (samples : list sample) (max_epochs : nat) (s : batch_state) :
  (forall w buf, exists buf' input steps, collect w [] buf = Ok (buf', input, steps)) ->
  samples <> [] -> 0 < max_epochs ->
  pretrain_epochs I t 0 collect samples max_epochs s = Diverges.
Proof.
  intros Hcollect Hne Hpos. unfold pretrain_epochs.
  destruct max_epochs as [|n]; [lia|]. cbn [epoch_loop]. unfold pretrain_epoch.
  rewrite batch_loop_no_progress; [done | | done].
  intros [context s1]. unfold train_big_batch.
  destruct (Hcollect (bs_rbm s1) (bs_activated_input s1)) as (buf' & input & steps & ->).
  cbn. destruct (train_sub t input (bs_trainer s1) context (bs_rbm s1)) as [[r c] w]. eauto.
Qed.

(** X18.  With a big batch size of zero ([desc::BatchSize] or the layer's
    batch size is 0), batch pretraining of a non-empty sample range over at
    least one epoch does not return: a turn of the batch loop advances by no
    sample, so no number of turns reaches the end of the range. *)
Theorem pretrain_batch_zero_batch_size_diverges `{svm_lib} (cfg : dbn_traits) (d : dbn)
    (random_access : bool) (training_data : list sample) (max_epochs : nat)
    (l0 : layer_t) (ls : list layer_t) :
  tuples d = l0 :: ls ->
  save_memory cfg = true ->
  batch_layer_ignore l0.1 = false ->
  BatchSize cfg * get_batch_size l0.1 (init_training l0.1 l0.2 training_data).2 = 0 ->
  training_data <> [] ->
  0 < max_epochs ->
  pretrain cfg d random_access training_data max_epochs = Diverges
  /\ forall fuel {St} (body : list sample -> St -> outcome St) (s : St),
       (forall s, exists s', body [] s = Ok s') ->
       batch_loop fuel 0 body training_data s = Diverges.
Proof.
  intros Hd Hmode Hfirst Hzero Hne Hpos. split.
  - unfold pretrain. rewrite Hmode, Hd. cbn [pretrain_layer_batch]. rewrite Hfirst.
    unfold pretrain_one_batch.
    destruct (init_training l0.1 l0.2 training_data) as [r_trainer w0]. simpl in Hzero.
    rewrite Hzero. simpl.
    rewrite pretrain_epochs_no_progress; [done | | done | done].
    intros w buf. by eexists _, _, _.
  - intros fuel St body s Hbody. by apply batch_loop_no_progress.
Qed.

Lemma pretrain_epochs_idle `{Domain} (I : nat) (t : rbm_type) (big_batch_size : nat)
    (collect : rbm -> list sample -> list vec -> outcome (list vec * list vec * list event))
    (samples : list sample) (max_epochs : nat) (s : batch_state) :
  samples = [] \/ max_epochs = 0 ->
  exists s', pretrain_epochs I t big_batch_size collect samples max_epochs s = Ok s'
             /\ bs_steps s' = bs_steps s.
Proof.
  unfold pretrain_epochs. intros [-> | ->]; [|by exists s].
  generalize 0 as epoch. revert s.
  induction max_epochs as [|n IH]; intros s epoch; [by exists s|].
  cbn [epoch_loop].
  assert (Hepoch : exists s1, pretrain_epoch I t big_batch_size collect [] epoch s = Ok s1
                              /\ bs_steps s1 = bs_steps s).
  { unfold pretrain_epoch. simpl.
    destruct (finalize_epoch t epoch (init_epoch t (bs_trainer s)) ctx_new (bs_rbm s))
      as [r w]. eauto. }
  destruct Hepoch as (s1 & -> & Hs1). cbn [mbind outcome_bind].
  destruct (IH s1 (S epoch)) as (s' & -> & Hs'). exists s'. by rewrite Hs', Hs1.
Qed.

Lemma pretrain_layer_batch_idle `{Domain} (cfg : dbn_traits) (samples : list sample)
    (max_epochs : nat) (ls : list layer_t) :
  forall done : list layer_t,
  samples = [] \/ max_epochs = 0 ->
  (done = [] -> forall l, head ls = Some l -> batch_layer_ignore l.1 = false) ->
  exists trained steps,
    pretrain_layer_batch cfg done ls samples max_epochs = Ok (trained, steps)
    /\ Forall notifies_only steps.
Proof.
  induction ls as [|l ls IH]; intros done Hidle Hfirst.
  - by exists done, [].
  - cbn [pretrain_layer_batch]. destruct (batch_layer_ignore l.1) eqn:Hign.
    + destruct done as [|d0 done'] eqn:Hdone;
        [by rewrite (Hfirst eq_refl l eq_refl) in Hign|].
      rewrite <- Hdone. apply IH; [done | by destruct done].
    + assert (Hone : exists w, pretrain_one_batch cfg done l samples max_epochs
                               = Ok ((l.1, w), [pretrain_layer_event (length done) 0])).
      { unfold pretrain_one_batch.
        destruct (init_training l.1 l.2 samples) as [r_trainer w0].
        destruct done as [|d0 done'] eqn:Hdone.
        - destruct (pretrain_epochs_idle 0 l.1 (BatchSize cfg * get_batch_size l.1 w0)
                      (fun rbm batch activated_input =>
                         Ok (activated_input, convert_input l.1 rbm batch, []))
                      samples max_epochs
                      {| bs_trainer := r_trainer; bs_rbm := w0; bs_activated_input := [];
                         bs_steps := [pretrain_layer_event 0 0] |} Hidle) as (s' & Hs' & Hsteps).
          simpl. rewrite Hs'. cbn. rewrite Hsteps. eauto.
        - rewrite <- Hdone.
          destruct (last done) as [prev|] eqn:Hlast;
            [|apply last_None in Hlast; congruence].
          destruct (pretrain_epochs_idle (length done) l.1
                      (BatchSize cfg * get_batch_size l.1 w0)
                      (fun (_ : rbm) batch activated_input =>
                         activated_input ← foreach_i (activation_probabilities_rec done) 0
                                             (convert_input d0.1 d0.2 batch) activated_input;
                         Ok (activated_input, activated_input,
                             [collect_event (length done) (convert_input d0.1 d0.2 batch)]))
                      samples max_epochs
                      {| bs_trainer := r_trainer; bs_rbm := w0;
                         bs_activated_input :=
                           prepare_output prev.1 (BatchSize cfg * get_batch_size l.1 w0) false 0;
                         bs_steps := [pretrain_layer_event (length done) 0] |} Hidle)
            as (s' & Hs' & Hsteps).
          rewrite Hdone in *. rewrite Hs'. cbn. rewrite Hsteps. eauto. }
      destruct Hone as [w ->]. cbn [mbind outcome_bind].
      destruct (IH (done ++ [(l.1, w)])) as (trained & steps & -> & Hsteps);
        [done | by destruct done |].
      cbn. eexists _, _. split; [reflexivity|].
      constructor; [by exists (length done) | done].
Qed.

(** X19.  With no sample, or with no epoch, batch pretraining returns, zero
    big batch size or not, and calls [train_sub] on no layer: the steps
    between begin and end are the watcher's notifications of the trained
    layers. *)
Theorem pretrain_batch_idle `{svm_lib} (cfg : dbn_traits) (d : dbn) (random_access : bool)
    (training_data : list sample) (max_epochs : nat) (l0 : layer_t) (ls : list layer_t) :
  tuples d = l0 :: ls ->
  save_memory cfg = true ->
  batch_layer_ignore l0.1 = false ->
  training_data = [] \/ max_epochs = 0 ->
  exists d' steps,
    pretrain cfg d random_access training_data max_epochs
    = Ok (d', [pretraining_begin max_epochs] ++ steps ++ [pretraining_end])
    /\ Forall notifies_only steps.
Proof.
  intros Hd Hmode Hfirst Hidle.
  destruct (pretrain_layer_batch_idle cfg training_data max_epochs (l0 :: ls) [] Hidle)
    as (trained & steps & Hrun & Hsteps).
  { intros _ l [= <-]. done. }
  unfold pretrain. rewrite Hmode, Hd, Hrun. cbn. by eexists _, _.
Qed.

(** ** The steps of batch mode *)

Lemma refill_length {A} (fresh buf : list A) :
  length fresh <= length buf -> length (refill fresh buf) = length buf.
Proof. intros Hle. unfold refill. rewrite length_app, length_drop. lia. Qed.

Lemma foreach_i_refill {A B} (g : A -> B) (f : A -> B -> B) (input : list A) (buf : list B) :
  (forall v o, f v o = g v) ->
  length input <= length buf ->
  foreach_i f 0 input buf = Ok (refill (map g input) buf).
Proof.
  intros Hf Hle.
  pose proof (foreach_i_middle f input [] (take (length input) buf) (drop (length input) buf))
    as Hrun.
  cbn [app length] in Hrun. rewrite take_drop in Hrun.
  rewrite Hrun by (rewrite length_take; lia).
  unfold refill. rewrite length_map. do 2 f_equal.
  assert (Hzip : forall (mid : list B), length mid = length input ->
            zip_with f input mid = map g input).
  { clear -Hf. induction input as [|v input IH]; intros [|m mid] Hlen; try done.
    simpl in *. rewrite Hf, IH by lia. done. }
  apply Hzip. rewrite length_take. lia.
Qed.

(** *** Above layer 0 *)

Lemma chunks_within {A} (n : nat) :
  forall fuel (l : list A), Forall (fun batch => length batch <= n) (chunks fuel n l).
Proof.
  induction fuel as [|fuel IH]; intros [|x l]; try constructor.
  - rewrite length_take. lia.
  - apply IH.
Qed.

Section UpperLayer.
Context `{Domain} (done : list layer_t) (t : rbm_type) (conv : list sample -> list vec)
  (bbs : nat)
  (collect : rbm -> list sample -> list vec -> outcome (list vec * list vec * list event)).
Hypothesis done_not_empty : done <> [].

(** [collect] is the collecting step of [pretrain_layer_batch<I>] for
    [I > 0]. *)
Hypothesis collect_fills :
  forall w batch buf,
    collect w batch buf
    = (activated_input ← foreach_i (activation_probabilities_rec done) 0 (conv batch) buf;
       Ok (activated_input, activated_input, [collect_event (length done) (conv batch)])).

Lemma run_all_upper (batches : list (list sample)) :
  forall (c : rbm_training_context) (s : batch_state),
  Forall (fun batch => length (conv batch) <= bbs) batches ->
  length (bs_activated_input s) = bbs ->
  exists c' s',
    run_all (train_big_batch (length done) t collect) batches (c, s) = Ok (c', s')
    /\ bs_steps s'
       = bs_steps s ++ (upper_batch_steps (length done) conv (forward done)
                          (bs_activated_input s) batches).1
    /\ bs_activated_input s'
       = (upper_batch_steps (length done) conv (forward done)
            (bs_activated_input s) batches).2
    /\ length (bs_activated_input s') = bbs.
Proof.
  induction batches as [|batch batches IH]; intros c s Hfit Hsized.
  - exists c, s. simpl. by rewrite app_nil_r.
  - apply Forall_cons in Hfit as [Hbatch Hfit].
    set (buf' := refill (map (forward done) (conv batch)) (bs_activated_input s)).
    assert (Hbuf' : length buf' = bbs)
      by (unfold buf'; rewrite refill_length; rewrite ?length_map; lia).
    destruct (train_sub t buf' (bs_trainer s) c (bs_rbm s)) as [[r c1] w] eqn:Hsub.
    destruct (IH c1 {| bs_trainer := r; bs_rbm := w; bs_activated_input := buf';
                       bs_steps := bs_steps s ++ [collect_event (length done) (conv batch)]
                                     ++ [train_sub_event (length done) buf'] |}
                Hfit Hbuf') as (c' & s' & Hrest & Hsteps & Hbuf & Hlen).
    exists c', s'. split; [|split; [|split; [|done]]].
    + cbn [run_all].
      replace (train_big_batch (length done) t collect batch (c, s))
        with (Ok (c1, {| bs_trainer := r; bs_rbm := w; bs_activated_input := buf';
                         bs_steps := bs_steps s ++ [collect_event (length done) (conv batch)]
                                       ++ [train_sub_event (length done) buf'] |})).
      * exact Hrest.
      * unfold train_big_batch. rewrite collect_fills.
        rewrite (foreach_i_refill (forward done)); [| | lia].
        -- cbn. fold buf'. by rewrite Hsub.
        -- intros v o. by apply activation_probabilities_rec_forward.
    + rewrite Hsteps. cbn [upper_batch_steps bs_steps bs_activated_input]. fold buf'.
      destruct (upper_batch_steps (length done) conv (forward done) buf' batches)
        as [steps final]. simpl. by rewrite <- app_assoc.
    + rewrite Hbuf. cbn [upper_batch_steps bs_steps bs_activated_input]. fold buf'.
      by destruct (upper_batch_steps (length done) conv (forward done) buf' batches).
Qed.

Lemma pretrain_epoch_upper (samples : list sample) (epoch : nat) (s : batch_state) :
  0 < bbs ->
  (forall batch, length batch <= bbs -> length (conv batch) <= bbs) ->
  length (bs_activated_input s) = bbs ->
  exists s',
    pretrain_epoch (length done) t bbs collect samples epoch s = Ok s'
    /\ bs_steps s'
       = bs_steps s ++ (upper_batch_steps (length done) conv (forward done)
                          (bs_activated_input s) (chunks (length samples) bbs samples)).1
    /\ bs_activated_input s'
       = (upper_batch_steps (length done) conv (forward done)
            (bs_activated_input s) (chunks (length samples) bbs samples)).2
    /\ length (bs_activated_input s') = bbs.
Proof.
  intros Hpos Hconv Hsized. unfold pretrain_epoch.
  rewrite batch_loop_run_all by done.
  destruct (run_all_upper (chunks (length samples) bbs samples) ctx_new
              {| bs_trainer := init_epoch t (bs_trainer s); bs_rbm := bs_rbm s;
                 bs_activated_input := bs_activated_input s; bs_steps := bs_steps s |})
    as (c' & s' & -> & Hsteps & Hbuf & Hlen); [| done |].
  { eapply Forall_impl; [apply chunks_within|]. intros batch Hb. by apply Hconv. }
  cbn. destruct (finalize_epoch t epoch (bs_trainer s') c' (bs_rbm s')) as [r w].
  eexists. split; [reflexivity|]. by split; [|split].
Qed.

Lemma pretrain_epochs_upper (samples : list sample) (max_epochs : nat) (s : batch_state) :
  0 < bbs ->
  (forall batch, length batch <= bbs -> length (conv batch) <= bbs) ->
  length (bs_activated_input s) = bbs ->
  exists s',
    pretrain_epochs (length done) t bbs collect samples max_epochs s = Ok s'
    /\ bs_steps s'
       = bs_steps s ++ (upper_epochs_steps max_epochs (length done) conv (forward done)
                          (bs_activated_input s) (chunks (length samples) bbs samples)).1.
Proof.
  intros Hpos Hconv. unfold pretrain_epochs. generalize 0 as epoch. revert s.
  induction max_epochs as [|n IH]; intros s epoch Hsized.
  - exists s. simpl. by rewrite app_nil_r.
  - destruct (pretrain_epoch_upper samples epoch s Hpos Hconv Hsized)
      as (s1 & Hs1 & Hsteps1 & Hbuf1 & Hlen1).
    destruct (IH s1 (S epoch) Hlen1) as (s' & Hrest & Hsteps').
    exists s'. split.
    + cbn [epoch_loop]. rewrite Hs1. exact Hrest.
    + rewrite Hsteps', Hsteps1, Hbuf1. cbn [upper_epochs_steps].
      destruct (upper_batch_steps (length done) conv (forward done) (bs_activated_input s)
                  (chunks (length samples) bbs samples)) as [steps buf'].
      simpl.
      destruct (upper_epochs_steps n (length done) conv (forward done) buf'
                  (chunks (length samples) bbs samples)) as [steps2 final].
      simpl. by rewrite <- app_assoc.
Qed.

End UpperLayer.

Lemma upper_batch_steps_sized `{Domain} (I : nat) (conv : list sample -> list vec)
    (fwd : vec -> vec) (n : nat) (batches : list (list sample)) :
  forall buf : list vec,
  Forall (fun batch => length (conv batch) <= n) batches ->
  length buf = n ->
  Forall (trains_on_exactly n) (upper_batch_steps I conv fwd buf batches).1
  /\ length (upper_batch_steps I conv fwd buf batches).2 = n.
Proof.
  induction batches as [|batch batches IH]; intros buf Hfit Hbuf; [by split|].
  apply Forall_cons in Hfit as [Hbatch Hfit]. cbn [upper_batch_steps].
  assert (Hlen : length (refill (map fwd (conv batch)) buf) = n)
    by (rewrite refill_length; rewrite ?length_map; lia).
  destruct (IH (refill (map fwd (conv batch)) buf) Hfit Hlen) as [Hsteps Hfinal].
  destruct (upper_batch_steps I conv fwd (refill (map fwd (conv batch)) buf) batches)
    as [steps final]. simpl in *. split; [|done].
  constructor; [done|]. by constructor.
Qed.


Lemma pretrain_one_batch_upper `{Domain} (cfg : dbn_traits) (l0 prev l : layer_t)
    (done : list layer_t) (samples : list sample) (max_epochs : nat) :
  head done = Some l0 ->
  last done = Some prev ->
  converts_each l0.1 ->
  0 < BatchSize cfg * get_batch_size l.1 (init_training l.1 l.2 samples).2 ->
  exists w,
    pretrain_one_batch cfg done l samples max_epochs
    = Ok ((l.1, w),
          pretrain_layer_event (length done) 0
            :: (upper_epochs_steps max_epochs (length done) (convert_input l0.1 l0.2)
                  (forward done)
                  (prepare_output prev.1
                     (BatchSize cfg * get_batch_size l.1 (init_training l.1 l.2 samples).2)
                     false 0)
                  (chunks (length samples)
                     (BatchSize cfg * get_batch_size l.1 (init_training l.1 l.2 samples).2)
                     samples)).1).
Proof.
  intros Hhead Hlast Hconv Hpos. unfold pretrain_one_batch.
  destruct (init_training l.1 l.2 samples) as [r_trainer w0]. cbn [snd] in Hpos |- *.
  set (bbs := BatchSize cfg * get_batch_size l.1 w0) in *.
  destruct done as [|d0 done'] eqn:Hdone; [done|].
  simpl in Hhead. injection Hhead as ->. rewrite <- Hdone in *. rewrite Hlast.
  assert (Hne : done <> []) by (by rewrite Hdone).
  destruct (pretrain_epochs_upper done l.1 (convert_input l0.1 l0.2) bbs
              (fun (_ : rbm) batch activated_input =>
                 activated_input ← foreach_i (activation_probabilities_rec done) 0
                                     (convert_input l0.1 l0.2 batch) activated_input;
                 Ok (activated_input, activated_input,
                     [collect_event (length done) (convert_input l0.1 l0.2 batch)]))
              Hne (fun _ _ _ => eq_refl) samples max_epochs
              {| bs_trainer := r_trainer; bs_rbm := w0;
                 bs_activated_input := prepare_output prev.1 bbs false 0;
                 bs_steps := [pretrain_layer_event (length done) 0] |} Hpos)
    as (s' & Hs' & Hsteps).
  - intros batch Hb. by rewrite Hconv.
  - simpl. by rewrite prepare_output_length.
  - rewrite Hs'. cbn. rewrite Hsteps. eauto.
Qed.


(** *** Layer 0 *)

Section LayerZero.
Context `{Domain} (t : rbm_type) (f : sample -> vec)
  (collect : rbm -> list sample -> list vec -> outcome (list vec * list vec * list event)).
Hypothesis converts : converts_with f t.

(** [collect] is the converting step of [pretrain_layer_batch<0>]. *)
Hypothesis collect_converts :
  forall w batch buf, collect w batch buf = Ok (buf, convert_input t w batch, []).



End LayerZero.


(** *** A range that ends with a full and a short batch *)

Lemma chunks_fuel {A} (n : nat) :
  0 < n ->
  forall fuel1 fuel2 (l : list A), length l <= fuel1 -> length l <= fuel2 ->
    chunks fuel1 n l = chunks fuel2 n l.
Proof.
  intros Hn. induction fuel1 as [|fuel1 IH1]; intros fuel2 l H1 H2.
  - destruct l; [by destruct fuel2 | simpl in H1; lia].
  - destruct l as [|y l]; [by destruct fuel2|].
    destruct fuel2 as [|fuel2]; [simpl in H2; lia|].
    cbn [chunks]. f_equal. apply IH1; rewrite length_drop; simpl in *; lia.
Qed.

Lemma chunks_app_full {A} (n : nat) :
  0 < n ->
  forall k (a b : list A) fuel,
  length a = k * n -> length (a ++ b) <= fuel ->
  chunks fuel n (a ++ b) = chunks (length a) n a ++ chunks (length b) n b.
Proof.
  intros Hn. induction k as [|k IH]; intros a b fuel Ha Hfuel.
  - destruct a; [|done]. simpl in *. by apply chunks_fuel.
  - assert (Hlen : n <= length a) by lia.
    destruct a as [|x a]; [simpl in *; lia|].
    destruct fuel as [|fuel]; [simpl in Hfuel; lia|].
    change ((x :: a) ++ b) with (x :: (a ++ b)).
    cbn [chunks length].
    change (x :: (a ++ b)) with ((x :: a) ++ b).
    rewrite take_app_le, drop_app_le by done.
    rewrite (IH (drop n (x :: a)) b fuel).
    + rewrite app_comm_cons. f_equal. f_equal.
      apply chunks_fuel; [done | |]; rewrite length_drop; simpl in *; lia.
    + rewrite length_drop. simpl in *. lia.
    + rewrite length_app, length_drop. rewrite length_app in Hfuel. simpl in *. lia.
Qed.

Lemma upper_batch_steps_app `{Domain} (I : nat) (conv : list sample -> list vec)
    (fwd : vec -> vec) (batches1 batches2 : list (list sample)) :
  forall buf : list vec,
  (upper_batch_steps I conv fwd buf (batches1 ++ batches2)).1
  = (upper_batch_steps I conv fwd buf batches1).1
    ++ (upper_batch_steps I conv fwd (upper_batch_steps I conv fwd buf batches1).2 batches2).1.
Proof.
  induction batches1 as [|batch batches1 IH]; intros buf; [done|].
  cbn [app upper_batch_steps]. specialize (IH (refill (map fwd (conv batch)) buf)).
  destruct (upper_batch_steps I conv fwd (refill (map fwd (conv batch)) buf)
              (batches1 ++ batches2)) as [steps final].
  destruct (upper_batch_steps I conv fwd (refill (map fwd (conv batch)) buf) batches1)
    as [steps1 final1].
  simpl in *. by rewrite IH.
Qed.

Lemma refill_full {A} (fresh buf : list A) :
  length fresh = length buf -> refill fresh buf = fresh.
Proof. intros Hlen. unfold refill. by rewrite Hlen, drop_all, app_nil_r. Qed.

(** X22.  When the sample range ends with a full big batch followed by a
    shorter one, an epoch's last training call above layer 0 receives the
    activations of the short batch followed by those of the full batch from
    the short batch's length on: the buffer slots the short batch did not
    reach. *)
Theorem pretrain_batch_short_batch_is_stale `{Domain} (cfg : dbn_traits) (f : sample -> vec)
    (l0 prev l : layer_t) (done : list layer_t) (before full short : list sample)
    (k max_epochs : nat) :
  head done = Some l0 ->
  last done = Some prev ->
  converts_with f l0.1 ->
  length before
    = k * (BatchSize cfg
           * get_batch_size l.1 (init_training l.1 l.2 (before ++ full ++ short)).2) ->
  length full
    = BatchSize cfg * get_batch_size l.1 (init_training l.1 l.2 (before ++ full ++ short)).2 ->
  0 < length short < length full ->
  0 < max_epochs ->
  exists w steps,
    pretrain_one_batch cfg done l (before ++ full ++ short) max_epochs = Ok ((l.1, w), steps)
    /\ train_sub_event (length done)
         (map (forward done) (map f short)
          ++ drop (length short) (map (forward done) (map f full))) ∈ steps.
Proof.
  intros Hhead Hlast Hconv Hbefore Hfull Hshort Hepochs.
  set (samples := before ++ full ++ short) in *.
  set (bbs := BatchSize cfg * get_batch_size l.1 (init_training l.1 l.2 samples).2) in *.
  assert (Hpos : 0 < bbs) by lia.
  assert (Heach : converts_each l0.1) by (intros w ss; by rewrite Hconv, length_map).
  destruct (pretrain_one_batch_upper cfg l0 prev l done samples max_epochs Hhead Hlast Heach
              Hpos) as [w Hrun].
  fold bbs in Hrun. eexists w, _. split; [exact Hrun|].
  apply list_elem_of_further.
  destruct max_epochs as [|n]; [lia|]. cbn [upper_epochs_steps].
  set (buf0 := prepare_output prev.1 bbs false 0).
  assert (Hbuf0 : length buf0 = bbs)
    by (unfold buf0; by rewrite prepare_output_length).
  assert (Hchunks : chunks (length samples) bbs samples
                    = chunks (length before) bbs before ++ [full; short]).
  { unfold samples. rewrite (chunks_app_full bbs Hpos k) by done. f_equal.
    rewrite length_app.
    destruct full as [|x full']; [simpl in *; lia|].
    change ((x :: full') ++ short) with (x :: (full' ++ short)).
    cbn [chunks length Nat.add].
    change (x :: (full' ++ short)) with ((x :: full') ++ short).
    rewrite take_app_length', drop_app_length' by done.
    destruct short as [|y short']; [simpl in *; lia|].
    destruct (length full' + length (y :: short')) eqn:Hfuel; [simpl in *; lia|].
    cbn [chunks]. rewrite take_ge, drop_ge by lia.
    by destruct n0. }
  rewrite Hchunks.
  destruct (upper_batch_steps_sized (length done) (convert_input l0.1 l0.2) (forward done) bbs
              (chunks (length before) bbs before) buf0) as [_ Hbuf1]; [|done|].
  { eapply Forall_impl; [apply chunks_within|]. intros batch Hb. simpl in Hb.
    by rewrite Heach. }
  destruct (upper_batch_steps (length done) (convert_input l0.1 l0.2) (forward done) buf0
              (chunks (length before) bbs before ++ [full; short])) as [s1 b1] eqn:Hs1.
  destruct (upper_epochs_steps n (length done) (convert_input l0.1 l0.2) (forward done) b1
              (chunks (length before) bbs before ++ [full; short])) as [s2 b2].
  cbn [fst]. apply elem_of_app. left.
  assert (Hs1' : s1 = (upper_batch_steps (length done) (convert_input l0.1 l0.2) (forward done)
                         buf0 (chunks (length before) bbs before ++ [full; short])).1)
    by (by rewrite Hs1).
  rewrite Hs1', upper_batch_steps_app.
  apply elem_of_app. right.
  cbn [upper_batch_steps fst]. rewrite !Hconv.
  rewrite (refill_full (map (forward done) (map f full)))
    by (rewrite !length_map; lia).
  unfold refill at 1. rewrite !length_map.
  do 3 apply list_elem_of_further. apply list_elem_of_here.
Qed.





(** ** Batch mode keeps the layer types *)



(** ** The further properties at concrete inputs *)

Lemma demo_svm_reads_back : svm_reads_back (H0 := Demo.svm).
Proof.
  intros m loaded m' loaded' rest. destruct loaded; simpl.
  - rewrite load_store_unary. by exists m.
  - by exists m'.
Qed.

Lemma stub_converts_with (inp out : nat) (pooling last : bool) :
  converts_with Demo.convert (Demo.stub inp out pooling last).
Proof. intros w samples. symmetry. apply map_id. Qed.

(** X3 on [net3]: three output units, prediction 1. *)
Lemma predict_within_output_witness :
  predict Demo.net3 Demo.s3 = 1
  /\ dbn_output_size Demo.net3 = 3
  /\ length (activation_probabilities Demo.net3 Demo.s3) = dbn_output_size Demo.net3
  /\ (0 < dbn_output_size Demo.net3 -> predict Demo.net3 Demo.s3 < dbn_output_size Demo.net3)
  /\ (dbn_output_size Demo.net3 = 0 -> predict Demo.net3 Demo.s3 = 0).
Proof.
  split; [reflexivity|]. split; [reflexivity|].
  apply (predict_within_output Demo.net3 Demo.s3 (Demo.stub 3 3 false true, 0)).
  - reflexivity.
  - apply stub_fills_output.
Defined.

(** X4 on [net_labels] with three classes. *)
Lemma predict_labels_within_labels_witness :
  exists k, predict_labels Demo.net_labels [1%Q; 2%Q] 3 = Ok k
    /\ (0 < 3 -> k < 3) /\ (3 = 0 -> k = 0).
Proof.
  apply (predict_labels_within_labels Demo.net_labels [1%Q; 2%Q] 3 []
           (Demo.stub 2 2 false true, 1) (Demo.stub 5 5 false true, 2)).
  - reflexivity.
  - apply Forall_singleton, stub_hidden_agrees.
  - apply stub_fills_output.
  - reflexivity.
  - intros v. apply stub_reconstruct_length.
Defined.

(** X5 on [net_labels]: two classes leave a unit over, three fit. *)
Lemma predict_labels_asserts_room_witness :
  predict_labels Demo.net_labels [1%Q; 2%Q] 2 = AssertionFailed no_room
  /\ asserts_nothing (predict_labels Demo.net_labels [1%Q; 2%Q] 3).
Proof.
  split.
  - apply (predict_labels_asserts_room Demo.net_labels [1%Q; 2%Q] 2
             (Demo.stub 2 2 false true, 1) (Demo.stub 5 5 false true, 2) eq_refl);
      [unfold fits_size_t; simpl; lia | unfold fits_size_t; simpl; lia | simpl; lia].
  - apply (predict_labels_asserts_room Demo.net_labels [1%Q; 2%Q] 3
             (Demo.stub 2 2 false true, 1) (Demo.stub 5 5 false true, 2) eq_refl).
    reflexivity.
Defined.

(** X6 on two layers of one unit. *)
Lemma activation_probabilities_splits_witness :
  activation_probabilities_rec
    ([(Demo.stub 1 1 false true, 1)] ++ [(Demo.stub 1 1 false true, 2)]) [1%Q] [] = [4%Q]
  /\ activation_probabilities_rec
       ([(Demo.stub 1 1 false true, 1)] ++ [(Demo.stub 1 1 false true, 2)]) [1%Q] []
     = activation_probabilities_rec [(Demo.stub 1 1 false true, 2)]
         (activation_probabilities_rec [(Demo.stub 1 1 false true, 1)] [1%Q] [0%Q]) [].
Proof.
  split; [reflexivity|].
  apply (activation_probabilities_splits [(Demo.stub 1 1 false true, 1)]
           [(Demo.stub 1 1 false true, 2)] [1%Q] [0%Q] []); discriminate.
Defined.

(** X7 on [net_svm], with one byte behind the stored network. *)
Lemma store_load_whole_network_witness :
  map snd (tuples (load (Demo.traits 2 true false) Demo.net_pool_fresh
                     (store (Demo.traits 2 true false) Demo.net_svm [] ++ [Byte.x02])).1)
    = [1; 7; 3]
  /\ svm_model (load (Demo.traits 2 true false) Demo.net_pool_fresh
                  (store (Demo.traits 2 true false) Demo.net_svm [] ++ [Byte.x02])).1 = 4
  /\ (load (Demo.traits 2 true false) Demo.net_pool_fresh
        (store (Demo.traits 2 true false) Demo.net_svm [] ++ [Byte.x02])).2 = [Byte.x02]
  /\ tuples (load (Demo.traits 2 true false) Demo.net_pool_fresh
               (store (Demo.traits 2 true false) Demo.net_svm [] ++ [Byte.x02])).1
     = restored (tuples Demo.net_svm) (tuples Demo.net_pool_fresh)
  /\ problem (load (Demo.traits 2 true false) Demo.net_pool_fresh
                (store (Demo.traits 2 true false) Demo.net_svm [] ++ [Byte.x02])).1
     = problem Demo.net_pool_fresh.
Proof.
  split; [reflexivity|]. split; [reflexivity|].
  destruct (store_load_whole_network (Demo.traits 2 true false) Demo.net_svm
              Demo.net_pool_fresh [Byte.x02]) as (Hrest & Htuples & Hproblem & _).
  - reflexivity.
  - repeat constructor; intros _; apply stub_loads_what_it_stores.
  - intros _. apply demo_svm_reads_back.
  - split; [exact Hrest|]. split; [exact Htuples | exact Hproblem].
Defined.

(** X8 on [net_pool] followed by [net_labels]. *)
Lemma store_load_two_networks_witness :
  tuples (load (Demo.traits 2 true false) Demo.net_pool_fresh
            (store (Demo.traits 2 true false) Demo.net_labels
               (store (Demo.traits 2 true false) Demo.net_pool []) ++ [])).1
    = restored (tuples Demo.net_pool) (tuples Demo.net_pool_fresh)
  /\ tuples (load (Demo.traits 2 true false) Demo.net_labels
               (load (Demo.traits 2 true false) Demo.net_pool_fresh
                  (store (Demo.traits 2 true false) Demo.net_labels
                     (store (Demo.traits 2 true false) Demo.net_pool []) ++ [])).2).1
     = restored (tuples Demo.net_labels) (tuples Demo.net_labels)
  /\ (load (Demo.traits 2 true false) Demo.net_labels
        (load (Demo.traits 2 true false) Demo.net_pool_fresh
           (store (Demo.traits 2 true false) Demo.net_labels
              (store (Demo.traits 2 true false) Demo.net_pool []) ++ [])).2).2 = [].
Proof.
  apply (store_load_two_networks (Demo.traits 2 true false) Demo.net_pool Demo.net_labels
           Demo.net_pool_fresh Demo.net_labels []).
  - reflexivity.
  - reflexivity.
  - repeat constructor; intros _; apply stub_loads_what_it_stores.
  - intros _. apply demo_svm_reads_back.
Defined.

(** X10 on [net_svm] with concatenated features. *)
Lemma reloaded_network_classifies_alike_witness :
  svm_predict (Demo.traits 2 true true) Demo.net_svm [1%Q; 2%Q] = Ok 4
  /\ predict (load (Demo.traits 2 true true) Demo.net_pool_fresh
                (store (Demo.traits 2 true true) Demo.net_svm [] ++ [])).1 [1%Q; 2%Q]
     = predict Demo.net_svm [1%Q; 2%Q]
  /\ svm_predict (Demo.traits 2 true true)
       (load (Demo.traits 2 true true) Demo.net_pool_fresh
          (store (Demo.traits 2 true true) Demo.net_svm [] ++ [])).1 [1%Q; 2%Q]
     = svm_predict (Demo.traits 2 true true) Demo.net_svm [1%Q; 2%Q].
Proof.
  split; [reflexivity|].
  apply (reloaded_network_classifies_alike (Demo.traits 2 true true) Demo.net_svm
           Demo.net_pool_fresh [] [1%Q; 2%Q]).
  - reflexivity.
  - repeat constructor; simpl;
      (apply stub_loads_what_it_stores || apply stub_pooling_parameter_free).
  - intros _.
    apply (demo_layers_agree [(2, 2, false, true, 1); (2, 2, true, true, 0);
                              (2, 2, false, true, 3)]).
  - reflexivity.
  - apply demo_svm_reads_back.
  - reflexivity.
Defined.

(** X11 on one sample with one label. *)
Lemma svm_train_installs_model_witness :
  svm_train (Demo.traits 2 false false) Demo.net3 [Demo.s3] [1] true
    = Ok ({| tuples := tuples Demo.net3; svm_model := 1; problem := ([1], [Demo.s3]);
             svm_loaded := true |}, true)
  /\ svm_grid_search (Demo.traits 2 false false) Demo.net3 [Demo.s3] [1] 5 tt
     = Ok ({| tuples := tuples Demo.net3; svm_model := 0; problem := ([1], [Demo.s3]);
              svm_loaded := false |}, true).
Proof.
  destruct (svm_train_installs_model (Demo.traits 2 false false) Demo.net3 [Demo.s3] [1] true
              5 tt) as [Htrain Hgrid].
  - discriminate.
  - intros _. apply (demo_layers_agree [(3, 3, false, true, 0); (3, 3, false, true, 0)]).
  - split; [apply Htrain | apply Hgrid]; reflexivity.
Defined.

(** X12 on the same call, with concatenated features. *)
Lemma svm_predict_after_train_witness :
  exists d',
    svm_train (Demo.traits 2 false true) Demo.net3 [Demo.s3] [1] true = Ok (d', true)
    /\ forall item,
         svm_predict (Demo.traits 2 false true) d' item
         = Ok (svm_predict_model
                 (svm_train_model
                    (svm_make_problem [1]
                       (map (features (Demo.traits 2 false true) Demo.net3) [Demo.s3]) false)
                    true)
                 (features (Demo.traits 2 false true) Demo.net3 item)).
Proof.
  apply (svm_predict_after_train (Demo.traits 2 false true) Demo.net3 [Demo.s3] [1] true).
  - discriminate.
  - intros _. apply (demo_layers_agree [(3, 3, false, true, 0); (3, 3, false, true, 0)]).
  - reflexivity.
Defined.

(** X13 on label 5 among three classes. *)
Lemma train_with_labels_label_out_of_range_witness :
  train_big_next_a (Demo.stub 2 2 false true) 1 [[2%Q; 3%Q]] [5] 3
    = Ok [[2%Q; 3%Q; 0%Q; 0%Q; 0%Q]]
  /\ exists rows,
       train_big_next_a (Demo.stub 2 2 false true) (length [[2%Q; 3%Q]]) [[2%Q; 3%Q]] [5] 3
       = Ok rows
       /\ forall i a label, [[2%Q; 3%Q]] !! i = Some a -> [5] !! i = Some label ->
            3 <= label -> rows !! i = Some (a ++ replicate 3 w_zero).
Proof.
  split; [reflexivity|].
  apply (train_with_labels_label_out_of_range (Demo.stub 2 2 false true) [[2%Q; 3%Q]] [5] 3).
  - reflexivity.
  - repeat constructor.
Defined.

(** X14 on [net_labels]. *)
Lemma train_with_labels_trains_every_layer_witness :
  Demo.contents (train_with_labels Demo.net_labels Demo.data2 Demo.labels2 3 1) = Ok [11; 58]
  /\ exists d' inputs,
       train_with_labels Demo.net_labels Demo.data2 Demo.labels2 3 1
       = Ok (d', [pretraining_begin 1] ++ layer_steps 0 1 inputs ++ [pretraining_end])
       /\ map fst (tuples d') = map fst (tuples Demo.net_labels)
       /\ svm_model d' = svm_model Demo.net_labels
       /\ problem d' = problem Demo.net_labels
       /\ svm_loaded d' = svm_loaded Demo.net_labels
       /\ length inputs = length (tuples Demo.net_labels)
       /\ Forall (fun input => length input = length Demo.data2) inputs.
Proof.
  split; [reflexivity|].
  apply (train_with_labels_trains_every_layer Demo.net_labels Demo.data2 Demo.labels2 3 1 []
           (Demo.stub 2 2 false true, 1) (Demo.stub 5 5 false true, 2)).
  - reflexivity.
  - intros l0 [= <-]. apply stub_converts_each.
  - apply Forall_singleton, stub_many_agrees.
  - apply stub_fills_output.
  - reflexivity.
  - reflexivity.
Defined.

(** X15 on [net_labels]. *)
Lemma train_with_labels_then_predict_labels_witness :
  exists d' steps,
    train_with_labels Demo.net_labels Demo.data2 Demo.labels2 3 1 = Ok (d', steps)
    /\ forall item, exists k, predict_labels d' item 3 = Ok k /\ k < 3.
Proof.
  apply (train_with_labels_then_predict_labels Demo.net_labels Demo.data2 Demo.labels2 3 1 []
           (Demo.stub 2 2 false true, 1) (Demo.stub 5 5 false true, 2)).
  - reflexivity.
  - intros l0 [= <-]. apply stub_converts_each.
  - apply Forall_singleton. split; [apply stub_many_agrees | apply stub_hidden_agrees].
  - apply stub_fills_output.
  - intros w v. apply stub_reconstruct_length.
  - reflexivity.
  - reflexivity.
  - lia.
Defined.

(** X16 on [net_softmax], whose last layer is not marked [pretrain_last],
    and on [net_unmarked], whose layer 0 is not. *)
Lemma pretrain_full_mode_returns_witness :
  Demo.contents (pretrain (Demo.traits 2 false false) Demo.net_softmax true Demo.samples3 1)
    = Ok [6; 0]
  /\ trained_layers [(Demo.stub 1 1 false false, 0)] = 1
  /\ pretrain (Demo.traits 2 false false) Demo.net_unmarked true Demo.samples3 1 = IllFormed
  /\ exists d' inputs,
       pretrain (Demo.traits 2 false false) Demo.net_softmax true Demo.samples3 1
       = Ok (d', [pretraining_begin 1;
                  pretrain_layer_event 0 (fast_distance true Demo.samples3);
                  train_event 0 Demo.samples3 1]
                 ++ layer_steps 1 1 inputs ++ [pretraining_end])
       /\ map fst (tuples d') = map fst (tuples Demo.net_softmax)
       /\ svm_model d' = svm_model Demo.net_softmax
       /\ problem d' = problem Demo.net_softmax
       /\ svm_loaded d' = svm_loaded Demo.net_softmax
       /\ Forall (fun input => length input = length Demo.samples3) inputs
       /\ S (length inputs) = trained_layers [(Demo.stub 1 1 false false, 0)]
       /\ (forall k, trained_layers [(Demo.stub 1 1 false false, 0)] <= k ->
             tuples d' !! k = tuples Demo.net_softmax !! k).
Proof.
  split; [reflexivity|]. split; [reflexivity|]. split.
  - apply (pretrain_full_mode_returns (Demo.traits 2 false false) Demo.net_unmarked true
             Demo.samples3 1 (Demo.stub 1 1 false false, 0) [(Demo.stub 1 1 false true, 0)]);
      reflexivity.
  - apply (pretrain_full_mode_returns (Demo.traits 2 false false) Demo.net_softmax true
             Demo.samples3 1 (Demo.stub 1 1 false true, 0) [(Demo.stub 1 1 false false, 0)]);
      reflexivity.
Defined.

(** X17 on [net1]. *)
Lemma pretrain_full_mode_greedy_witness :
  Demo.contents (pretrain (Demo.traits 2 false false) Demo.net1 true Demo.samples3 1)
    = Ok [6; 24]
  /\ exists d' steps inputs,
       pretrain (Demo.traits 2 false false) Demo.net1 true Demo.samples3 1 = Ok (d', steps)
       /\ head inputs = Some Demo.samples3
       /\ (value_type_is_input_one_t (Demo.stub 1 1 false true) = None ->
           head inputs = Some Demo.samples3)
       /\ (forall same, value_type_is_input_one_t (Demo.stub 1 1 false true) = Some same ->
           head inputs = Some (as_input_one_t same <$> Demo.samples3))
       /\ length inputs = trained_layers [(Demo.stub 1 1 false true, 0)]
       /\ forall k input_k, inputs !! k = Some input_k ->
            train_event k input_k 1 ∈ steps
            /\ exists lk, tuples Demo.net1 !! k = Some lk
                 /\ tuples d' !! k = Some (lk.1, train lk.1 lk.2 input_k 1)
                 /\ forall next, inputs !! S k = Some next ->
                      next = map (activate_one lk.1 (train lk.1 lk.2 input_k 1)) input_k.
Proof.
  split; [reflexivity|].
  apply (pretrain_full_mode_greedy (Demo.traits 2 false false) Demo.net1 true Demo.samples3 1
           (Demo.stub 1 1 false true, 0) [(Demo.stub 1 1 false true, 0)]); reflexivity.
Defined.

(** X18 on [net1] with [BatchSize = 0]; with [BatchSize = 2] the run ends. *)
Lemma pretrain_batch_zero_batch_size_diverges_witness :
  pretrain (Demo.traits 2 true false) Demo.net1 true Demo.samples3 1 <> Diverges
  /\ pretrain (Demo.traits 0 true false) Demo.net1 true Demo.samples3 1 = Diverges
  /\ forall fuel {St} (body : list sample -> St -> outcome St) (s : St),
       (forall s, exists s', body [] s = Ok s') ->
       batch_loop fuel 0 body Demo.samples3 s = Diverges.
Proof.
  split; [discriminate|].
  apply (pretrain_batch_zero_batch_size_diverges (Demo.traits 0 true false) Demo.net1 true
           Demo.samples3 1 (Demo.stub 1 1 false true, 0) [(Demo.stub 1 1 false true, 0)]);
    try reflexivity.
  - discriminate.
  - lia.
Defined.

(** X19 on [net1] without samples. *)
Lemma pretrain_batch_idle_witness :
  pretrain (Demo.traits 0 true false) Demo.net1 true [] 3
    = Ok (Demo.net1, [pretraining_begin 3; pretrain_layer_event 0 0; pretrain_layer_event 1 0;
                      pretraining_end])
  /\ exists d' steps,
       pretrain (Demo.traits 0 true false) Demo.net1 true [] 3
       = Ok (d', [pretraining_begin 3] ++ steps ++ [pretraining_end])
       /\ Forall notifies_only steps.
Proof.
  split; [reflexivity|].
  apply (pretrain_batch_idle (Demo.traits 0 true false) Demo.net1 true [] 3
           (Demo.stub 1 1 false true, 0) [(Demo.stub 1 1 false true, 0)]).
  - reflexivity.
  - reflexivity.
  - reflexivity.
  - by left.
Defined.



(** X22 on the same run: the last call sees 9 and again 8. *)
Lemma pretrain_batch_short_batch_is_stale_witness :
  exists w steps,
    pretrain_one_batch (Demo.traits 2 true false) Demo.below Demo.upper
      ([] ++ [[1%Q]; [2%Q]] ++ [[3%Q]]) 1 = Ok ((Demo.upper.1, w), steps)
    /\ train_sub_event (length Demo.below)
         (map (forward Demo.below) (map Demo.convert [[3%Q]])
          ++ drop (length [[3%Q]])
               (map (forward Demo.below) (map Demo.convert [[1%Q]; [2%Q]]))) ∈ steps.
Proof.
  apply (pretrain_batch_short_batch_is_stale (Demo.traits 2 true false) Demo.convert
           (Demo.stub 1 1 false true, 6) (Demo.stub 1 1 false true, 6) Demo.upper
           Demo.below [] [[1%Q]; [2%Q]] [[3%Q]] 0 1).
  - reflexivity.
  - reflexivity.
  - apply stub_converts_with.
  - reflexivity.
  - reflexivity.
  - simpl. lia.
  - lia.
Defined.


